(** * llm-image-assertions: a shallow embedding of [src/index.ts]

  The file models the [ImageAssertions] class ([generateImage],
  [validateImage]) and the Jest matcher [toSatisfyImageAssertions].

  - JavaScript strings are sequences of UTF-16 code units ([list N]).
  - JavaScript numbers are IEEE binary64 values ([PrimFloat.float]).
  - Values produced by [JSON.parse] are dynamically typed ([JSValue]).
  - A [throw] is the [Throw] branch of [Exc]; [await client.send(..)]
    is a node of the [Async] tree, so the calls a method makes to the
    Bedrock client can be counted and answered by any handler.
  - What the JavaScript engine and Node provide ([JSON.parse],
    [TextDecoder], [Buffer.from], string-to-number coercion, the text
    of engine-raised errors) is the interface [Runtime]. *)

From Stdlib Require Import List NArith ZArith Bool String Ascii Lia.
From Stdlib Require Import Floats Uint63.
From Stdlib Require Import Permutation.
Import ListNotations.

Set Implicit Arguments.
#[local] Set Warnings "-inexact-float".

(* ================================================================== *)
(** * JavaScript strings *)

Module JSString.

(** A string is its sequence of UTF-16 code units. *)
Definition jsstring := list N.

(** An ASCII literal as a JavaScript string. *)
Definition lit (s : string) : jsstring :=
  List.map N_of_ascii (list_ascii_of_string s).

Definition LF : N := 10.
Definition DQUOTE : N := 34.
Definition BACKTICK : N := 96.
Definition LBRACE : N := 123.
Definition RBRACE : N := 125.

(** [quoted s] is [s] between two double quotes. *)
Definition quoted (s : string) : jsstring := DQUOTE :: lit s ++ [DQUOTE].

(** [a === b] on strings: same code units. *)
Fixpoint eqb (a b : jsstring) : bool :=
  match a, b with
  | [], [] => true
  | x :: a', y :: b' => N.eqb x y && eqb a' b'
  | _, _ => false
  end.

(** [a < b] on strings: lexicographic order on code units. *)
Fixpoint ltb (a b : jsstring) : bool :=
  match a, b with
  | _, [] => false
  | [], _ :: _ => true
  | x :: a', y :: b' =>
      if N.ltb x y then true
      else if N.eqb x y then ltb a' b' else false
  end.

(** WhiteSpace and LineTerminator code units of ECMAScript: what the
    regular-expression class [\s] matches and what [trim] strips. *)
Definition is_space (c : N) : bool :=
  ((9 <=? c) && (c <=? 13) || (c =? 32) || (c =? 160) || (c =? 5760)
   || (8192 <=? c) && (c <=? 8202)
   || (c =? 8232) || (c =? 8233) || (c =? 8239) || (c =? 8287)
   || (c =? 12288) || (c =? 65279))%N.

Fixpoint trimStart (s : jsstring) : jsstring :=
  match s with
  | c :: s' => if is_space c then trimStart s' else s
  | [] => []
  end.

Definition trimEnd (s : jsstring) : jsstring := rev (trimStart (rev s)).

(** [String.prototype.trim]. *)
Definition trim (s : jsstring) : jsstring := trimEnd (trimStart s).

(** [parts.join(sep)]. *)
Fixpoint join (sep : jsstring) (parts : list jsstring) : jsstring :=
  match parts with
  | [] => []
  | [p] => p
  | p :: rest => p ++ sep ++ join sep rest
  end.

End JSString.
Import JSString.

(* ================================================================== *)
(** * Regular expressions

  The four patterns of [validateImage] are sequences of single-unit
  matchers and greedy stars of single-unit matchers.  [exec_at] is the
  backtracking matcher of ECMAScript on that fragment: a star first
  takes as many units as it can and gives them back one at a time. *)

Module RegExp.

Inductive atom :=
| One (p : N -> bool)      (* a literal, a class or [.] *)
| Star (p : N -> bool).    (* [p*], greedy *)

Definition regexp := list atom.

Definition chr (c : N) : atom := One (N.eqb c).
Definition any : N -> bool := fun _ => true.   (* [.] under the [s] flag *)

(** [star p k s]: the units of [s] that [p*] takes before the rest of
    the pattern, [k], matches: the longest run first, then shorter
    ones. *)
Fixpoint star (p : N -> bool) (k : jsstring -> option (jsstring * jsstring))
  (s : jsstring) : option (jsstring * jsstring) :=
  match s with
  | c :: s' =>
      if p c then
        match star p k s' with
        | Some (m, rest) => Some (c :: m, rest)
        | None => k s
        end
      else k s
  | [] => k s
  end.

(** [exec_at r s]: the match of [r] anchored at the start of [s], as
    (matched text, rest of [s]). *)
Fixpoint exec_at (r : regexp) (s : jsstring) {struct r}
  : option (jsstring * jsstring) :=
  match r with
  | [] => Some ([], s)
  | One p :: r' =>
      match s with
      | c :: s' =>
          if p c then
            match exec_at r' s' with
            | Some (m, rest) => Some (c :: m, rest)
            | None => None
            end
          else None
      | [] => None
      end
  | Star p :: r' => star p (exec_at r') s
  end.

(** The leftmost match: (text before, matched text, text after). *)
Fixpoint exec (r : regexp) (s : jsstring)
  : option (jsstring * jsstring * jsstring) :=
  match exec_at r s with
  | Some (m, rest) => Some ([], m, rest)
  | None =>
      match s with
      | [] => None
      | c :: s' =>
          match exec r s' with
          | Some (before, m, rest) => Some (c :: before, m, rest)
          | None => None
          end
      end
  end.

(** [s.match(r)] for a pattern without the [g] flag: element [0] of
    the result, or [None] for [null]. *)
Definition match_ (r : regexp) (s : jsstring) : option jsstring :=
  match exec r s with
  | Some (_, m, _) => Some m
  | None => None
  end.

(** [s.replace(r, '')] for a pattern without the [g] flag: the
    leftmost match is removed. *)
Definition replace_first (r : regexp) (s : jsstring) : jsstring :=
  match exec r s with
  | Some (before, _, rest) => before ++ rest
  | None => s
  end.

(** [s.replace(r, '')] for a pattern with the [g] flag: every match is
    removed, scanning left to right; after an empty match the scan
    moves on by one unit.  [fuel] bounds the number of scan steps. *)
Fixpoint replace_all_from (fuel : nat) (r : regexp) (s : jsstring)
  : jsstring :=
  match fuel with
  | O => s
  | S fuel' =>
      match exec_at r s with
      | Some (_ :: _, rest) => replace_all_from fuel' r rest
      | _ =>
          match s with
          | [] => []
          | c :: s' => c :: replace_all_from fuel' r s'
          end
      end
  end.

Definition replace_all (r : regexp) (s : jsstring) : jsstring :=
  replace_all_from (S (List.length s)) r s.

(** [/```json\s*/] *)
Definition re_fence_json : regexp :=
  List.map chr (lit "```json") ++ [Star is_space].

(** [/```\s*/] *)
Definition re_fence : regexp :=
  List.map chr (lit "```") ++ [Star is_space].

(** [/\n/g] *)
Definition re_newline : regexp := [chr LF].

(** [/\{.*\}/s] *)
Definition re_braces : regexp := [chr LBRACE; Star any; chr RBRACE].

End RegExp.

(* ================================================================== *)
(** * JavaScript values, exceptions and the runtime interface *)

Module JS.

(** [Uint8Array] and [Buffer] contents. *)
Definition Uint8Array := list Byte.byte.

(** A value as [JSON.parse] builds it, plus [undefined].  The
    properties of an object are kept in insertion order, one entry per
    key. *)
#[local] Unset Elimination Schemes.
Inductive JSValue :=
| JUndefined
| JNull
| JBool (b : bool)
| JNumber (x : float)
| JString (s : jsstring)
| JArray (elems : list JSValue)
| JObject (props : list (jsstring * JSValue)).
#[local] Set Elimination Schemes.

(** What a [throw] carries: an [Error] instance (of any subclass) with
    its [name] and [message], or some other value, kept as the text
    [String(value)] gives. *)
Inductive Thrown :=
| ErrorObject (name message : jsstring)
| NonError (rendering : jsstring).

(** [new Error(message)] *)
Definition Error (message : jsstring) : Thrown :=
  ErrorObject (lit "Error") message.

(** [error instanceof Error ? error.message : String(error)] *)
Definition message_of (t : Thrown) : jsstring :=
  match t with
  | ErrorObject _ m => m
  | NonError r => r
  end.

(** The outcome of an expression that may throw. *)
Inductive Exc (A : Type) :=
| Ok (a : A)
| Throw (t : Thrown).
Arguments Ok {A} a.
Arguments Throw {A} t.

Definition bind {A B} (e : Exc A) (k : A -> Exc B) : Exc B :=
  match e with
  | Ok a => k a
  | Throw t => Throw t
  end.

(** [try { e } catch (error) { throw h(error) }] *)
Definition try_catch_rethrow {A} (e : Exc A) (h : Thrown -> Thrown) : Exc A :=
  match e with
  | Ok a => Ok a
  | Throw t => Throw (h t)
  end.

(** What [JSON.parse] does with a text: a value, or a [SyntaxError]
    with the engine's message. *)
Inductive ParseResult :=
| Parsed (v : JSValue)
| SyntaxError (message : jsstring).

(** The services of the JavaScript engine and of Node that the
    program calls and does not implement. *)
Class Runtime := {
  (** [JSON.parse(text)] *)
  JSON_parse : jsstring -> ParseResult;
  (** [JSON.stringify(value)] *)
  JSON_stringify : JSValue -> jsstring;
  (** [new TextDecoder().decode(bytes)] *)
  TextDecoder_decode : Uint8Array -> jsstring;
  (** [Buffer.from(text, 'base64')] on a string: it never throws *)
  Buffer_from_base64 : jsstring -> Uint8Array;
  (** [Buffer.from(value, 'base64')] on a value that is not a string *)
  Buffer_from_other : JSValue -> Exc Uint8Array;
  (** StringToNumber of ECMAScript *)
  StringToNumber : jsstring -> float;
  (** ToPrimitive on an array or an object made by [JSON.parse]: the
      string that its [toString] gives *)
  ObjectToString : JSValue -> jsstring;
  (** the message of the [TypeError] raised on reading property [key]
      of [undefined] or [null] *)
  TypeError_message : JSValue -> jsstring -> jsstring
}.

Definition parse `{Runtime} (text : jsstring) : Exc JSValue :=
  match JSON_parse text with
  | Parsed v => Ok v
  | SyntaxError m => Throw (ErrorObject (lit "SyntaxError") m)
  end.

(** The Number value of a length.  A length is an integer between 0
    and 2^53 - 1, and each of those is a binary64 value. *)
Definition number_of_length (n : nat) : float :=
  PrimFloat.of_uint63
    (Uint63.of_Z (Z.min (Z.of_nat n) 9007199254740991)).

(** ToBoolean *)
Definition ToBoolean (v : JSValue) : bool :=
  match v with
  | JUndefined | JNull => false
  | JBool b => b
  | JNumber x => negb (PrimFloat.eqb x 0 || PrimFloat.is_nan x)
  | JString s => match s with [] => false | _ :: _ => true end
  | JArray _ | JObject _ => true
  end.

(** [a === b].  Primitive values are compared by value (NaN differs
    from itself, the two zeros are equal), and a primitive value never
    equals an array or an object: the function is exact whenever one
    operand is primitive.  Two arrays or objects are equal when they
    are the same reference, which a value does not record; on two of
    them the function answers [false], the answer for two different
    references.  The statements about [===] below take one operand to
    be primitive. *)
Definition strict_equals (a b : JSValue) : bool :=
  match a, b with
  | JUndefined, JUndefined => true
  | JNull, JNull => true
  | JBool x, JBool y => Bool.eqb x y
  | JNumber x, JNumber y => PrimFloat.eqb x y
  | JString x, JString y => JSString.eqb x y
  | _, _ => false
  end.

(** ToPrimitive with hint number *)
Definition ToPrimitive `{Runtime} (v : JSValue) : JSValue :=
  match v with
  | JArray _ | JObject _ => JString (ObjectToString v)
  | _ => v
  end.

(** ToNumber of a primitive value *)
Definition ToNumber `{Runtime} (v : JSValue) : float :=
  match v with
  | JUndefined => PrimFloat.nan
  | JNull => 0%float
  | JBool b => if b then 1%float else 0%float
  | JNumber x => x
  | JString s => StringToNumber s
  | JArray _ | JObject _ => StringToNumber (ObjectToString v)
  end.

(** IsLessThan: [Some b] for true or false, [None] for undefined (an
    operand is NaN). *)
Definition IsLessThan `{Runtime} (a b : JSValue) : option bool :=
  match ToPrimitive a, ToPrimitive b with
  | JString sa, JString sb => Some (JSString.ltb sa sb)
  | pa, pb =>
      let na := ToNumber pa in
      let nb := ToNumber pb in
      if PrimFloat.is_nan na || PrimFloat.is_nan nb then None
      else Some (PrimFloat.ltb na nb)
  end.

(** [a >= b]: IsLessThan(a, b) is false. *)
Definition ge `{Runtime} (a b : JSValue) : bool :=
  match IsLessThan a b with
  | Some false => true
  | _ => false
  end.

(** The own property [key] of an object, [undefined] when absent. *)
Fixpoint lookup (key : jsstring) (props : list (jsstring * JSValue))
  : JSValue :=
  match props with
  | [] => JUndefined
  | (k, v) :: rest => if JSString.eqb k key then v else lookup key rest
  end.

Definition digit (c : N) : option nat :=
  if ((48 <=? c) && (c <=? 57))%N then Some (N.to_nat (c - 48)) else None.

Fixpoint digits_value (acc : nat) (s : jsstring) : option nat :=
  match s with
  | [] => Some acc
  | c :: s' =>
      match digit c with
      | Some d => digits_value (10 * acc + d) s'
      | None => None
      end
  end.

(** The array index a property key denotes: a decimal numeral without
    a leading zero. *)
Definition array_index (key : jsstring) : option nat :=
  match key with
  | [] => None
  | [48%N] => Some 0
  | 48%N :: _ => None
  | _ => digits_value 0 key
  end.

(** [v[key]] (or [v.key]).  Reading a property of [undefined] or
    [null] throws a [TypeError].  Arrays and strings have [length] and
    their indices.  The keys this program reads ([images], [length],
    [0], [score], [assertionsMet], [tone], [explanation]) name no
    member of a built-in prototype, so a key that is not an own
    property gives [undefined]. *)
Definition Get `{Runtime} (v : JSValue) (key : jsstring) : Exc JSValue :=
  match v with
  | JUndefined | JNull =>
      Throw (ErrorObject (lit "TypeError") (TypeError_message v key))
  | JObject props => Ok (lookup key props)
  | JArray elems =>
      if JSString.eqb key (lit "length")
      then Ok (JNumber (number_of_length (List.length elems)))
      else match array_index key with
           | Some i => Ok (nth i elems JUndefined)
           | None => Ok JUndefined
           end
  | JString s =>
      if JSString.eqb key (lit "length")
      then Ok (JNumber (number_of_length (List.length s)))
      else match array_index key with
           | Some i =>
               Ok (match nth_error s i with
                   | Some c => JString [c]
                   | None => JUndefined
                   end)
           | None => Ok JUndefined
           end
  | JBool _ | JNumber _ => Ok JUndefined
  end.

End JS.
Import JS.

Declare Scope exc_scope.
Delimit Scope exc_scope with exc.
Notation "x <- e ;; k" := (JS.bind e (fun x => k))
(at level 61, e at next level, right associativity) : exc_scope.

(* ================================================================== *)
(** * The Bedrock runtime client *)

Module Bedrock.

(** A client is configured with its region. *)
Record BedrockRuntimeClient := { client_region : jsstring }.

Record InvokeModelCommand := {
  invoke_modelId : jsstring;
  invoke_body : jsstring;
  invoke_contentType : jsstring;
  invoke_accept : jsstring
}.

Record InvokeModelResponse := { response_body : option Uint8Array }.

Inductive ImageFormat := PNG.
Inductive ConversationRole := USER | ASSISTANT.

(** The members of the [ContentBlock] union that the program builds or
    reads; [OtherBlock] stands for the remaining ones. *)
Inductive ContentBlock :=
| TextBlock (text : jsstring)
| ImageBlock (format : ImageFormat) (bytes : Uint8Array)
| OtherBlock.

(** [block.text] *)
Definition block_text (b : ContentBlock) : option jsstring :=
  match b with
  | TextBlock t => Some t
  | _ => None
  end.

Record Message := {
  message_role : ConversationRole;
  message_content : list ContentBlock
}.

Record InferenceConfiguration := {
  config_temperature : float;
  config_topP : float;
  config_maxTokens : float
}.

Record ConverseCommandInput := {
  converse_modelId : jsstring;
  converse_messages : list Message;
  converse_inferenceConfig : InferenceConfiguration
}.

(** A reply as it arrives: every level may be missing. *)
Record ReplyMessage := { reply_content : option (list ContentBlock) }.
Record ConverseOutput := { output_message : option ReplyMessage }.
Record ConverseResponse := { response_output : option ConverseOutput }.

(** An [async] method up to its result: it returns, or it awaits one
    [client.send(command)] and goes on with what the promise settles
    to, a response or a rejection. *)
Inductive Async (A : Type) :=
| Return (a : A)
| AwaitInvokeModel (client : BedrockRuntimeClient) (command : InvokeModelCommand)
    (k : Exc InvokeModelResponse -> Async A)
| AwaitConverse (client : BedrockRuntimeClient) (command : ConverseCommandInput)
    (k : Exc ConverseResponse -> Async A).
Arguments Return {A} a.
Arguments AwaitInvokeModel {A} client command k.
Arguments AwaitConverse {A} client command k.

(** The service behind the clients: each call answers from the state of
    the world and changes it. *)
Record Service (World : Type) := {
  invokeModel :
    BedrockRuntimeClient -> InvokeModelCommand -> World ->
    World * Exc InvokeModelResponse;
  converse :
    BedrockRuntimeClient -> ConverseCommandInput -> World ->
    World * Exc ConverseResponse
}.

(** Running a method against a service, from a state of the world. *)
Fixpoint run {World A} (svc : Service World) (p : Async A) (w : World)
  : World * A :=
  match p with
  | Return a => (w, a)
  | AwaitInvokeModel client c k =>
      let (w', r) := invokeModel svc client c w in run svc (k r) w'
  | AwaitConverse client c k =>
      let (w', r) := converse svc client c w in run svc (k r) w'
  end.

(** A mocked service: it answers as [invoke] and [converse] say,
    whichever client sends, and its state is the number of calls it
    has received. *)
Definition mock (invoke : InvokeModelCommand -> Exc InvokeModelResponse)
  (converse : ConverseCommandInput -> Exc ConverseResponse) : Service nat :=
  {| invokeModel := fun _ c n => (S n, invoke c);
     converse := fun _ c n => (S n, converse c) |}.

(** What a method settles to against the mocked service, and how many
    calls it makes. *)
Definition settle {A} invoke converse (p : Async A) : A :=
  snd (run (mock invoke converse) p 0).

Definition calls {A} invoke converse (p : Async A) : nat :=
  fst (run (mock invoke converse) p 0).

(** A reply whose first content block is the text [content]. *)
Definition text_reply (content : jsstring) : ConverseResponse :=
  {| response_output :=
       Some {| output_message :=
                 Some {| reply_content := Some [TextBlock content] |} |} |}.

End Bedrock.
Import Bedrock.

(* ================================================================== *)
(** * The [ImageAssertions] class *)

Module ImageAssertions.

Inductive ImageTone := DREAMY | PHOTO_REALISTIC | BLACK_AND_WHITE.

Definition ImageTone_value (t : ImageTone) : jsstring :=
  match t with
  | DREAMY => lit "dreamy"
  | PHOTO_REALISTIC => lit "photo-realistic"
  | BLACK_AND_WHITE => lit "black-and-white"
  end.

(** [Object.values(ImageTone)] *)
Definition ImageTone_values : list jsstring :=
  List.map ImageTone_value [DREAMY; PHOTO_REALISTIC; BLACK_AND_WHITE].

Inductive Quality := standard | premium.

Definition Quality_value (q : Quality) : jsstring :=
  match q with
  | standard => lit "standard"
  | premium => lit "premium"
  end.

Record ImageConfig := {
  width : option float;
  height : option float;
  quality : option Quality;
  cfgScale : option float;
  seed : option float
}.

(** [ImageGenerationInput]; an optional field that is missing is
    [None]. *)
Record ImageGenerationInput := {
  prompt : jsstring;
  generation_modelId : option jsstring;
  generation_region : option jsstring;
  imageConfig : option ImageConfig
}.

(** [ImageGenerationResult].  [base64Image] is the first entry of the
    response's [images] as it was parsed. *)
Record ImageGenerationResult := {
  imageBytes : Uint8Array;
  base64Image : JSValue;
  modelId : jsstring
}.

(** [ImageAssertionsInput].  [assertionPrompt] is declared required; an
    untyped caller can still leave it out, which is [None]. *)
Record ImageAssertionsInput := {
  input_imageBytes : option Uint8Array;
  input_base64Image : option jsstring;
  assertionPrompt : option jsstring;
  input_modelId : option jsstring;
  confidenceThreshold : option float;
  temperature : option float;
  topP : option float;
  maxTokensToSample : option float
}.

(** [ImageAssertionResponse].  The fields hold what the model's JSON
    held: the declared types are not checked at run time. *)
Record ImageAssertionResponse := {
  assertionsMet : JSValue;
  score : JSValue;
  tone : JSValue;
  explanation : JSValue
}.

(** The instance: its client and its region. *)
Record t := {
  bedrock : BedrockRuntimeClient;
  region : jsstring
}.

(** A destructuring default: [{ x = d } = options]. *)
Definition default {A} (o : option A) (d : A) : A :=
  match o with
  | Some a => a
  | None => d
  end.

(** Truthiness of an optional string: [undefined] and [''] are falsy. *)
Definition truthy_string (o : option jsstring) : bool :=
  match o with
  | Some (_ :: _) => true
  | _ => false
  end.

(** Truthiness of an optional [Uint8Array]: any array, even an empty
    one, is an object and so truthy. *)
Definition truthy_bytes (o : option Uint8Array) : bool :=
  match o with
  | Some _ => true
  | None => false
  end.

(** [constructor(options: { region?: string } = {})] *)
Definition new (options_region : option jsstring) : t :=
  let region := match options_region with
                | Some (c :: r) => c :: r
                | _ => lit "us-east-1"      (* [options.region || 'us-east-1'] *)
                end in
  {| bedrock := {| client_region := region |}; region := region |}.

(** ** [generateImage] *)

Definition number_field (name : string) (x : float) : jsstring * JSValue :=
  (lit name, JNumber x).

(** The request body for Titan Image Generator. *)
Definition requestBody (prompt : jsstring) (width height : float)
  (quality : Quality) (cfgScale : float) (seed : option float) : JSValue :=
  JObject
    [ (lit "taskType", JString (lit "TEXT_IMAGE"));
      (lit "textToImageParams", JObject [ (lit "text", JString prompt) ]);
      (lit "imageGenerationConfig",
       JObject
         ([ number_field "numberOfImages" 1;
            number_field "width" width;
            number_field "height" height;
            (lit "quality", JString (Quality_value quality));
            number_field "cfgScale" cfgScale ]
          ++ match seed with
             | Some s => [ number_field "seed" s ]
             | None => []
             end)) ].

(** The body of the [try] block, from the settled [client.send]. *)
Definition generateImage_try `{Runtime} (modelId : jsstring)
  (sent : Exc InvokeModelResponse) : Exc ImageGenerationResult :=
  (response <- sent ;;
   match response_body response with
   | None => Throw (Error (lit "No response body received from model"))
   | Some body =>
       responseBody <- parse (TextDecoder_decode body) ;;
       images <- Get responseBody (lit "images") ;;
       no_images <-
         (if negb (ToBoolean images) then Ok true
          else (len <- Get images (lit "length") ;;
                Ok (strict_equals len (JNumber 0)))) ;;
       if no_images : bool
       then Throw (Error (lit "No images returned from model"))
       else
         base64Image <- Get images (lit "0") ;;
         if negb (ToBoolean base64Image)
         then Throw (Error (lit "No image data found in response"))
         else
           imageBytes <-
             match base64Image with
             | JString s => Ok (Buffer_from_base64 s)
             | other => Buffer_from_other other
             end ;;
           Ok {| imageBytes := imageBytes;
                 base64Image := base64Image;
                 modelId := modelId |}
   end)%exc.

(** The [catch] block: whatever was thrown is thrown again as one
    [Error] that carries its message. *)
Definition generateImage_catch (error : Thrown) : Thrown :=
  Error (lit "Image generation failed: " ++ message_of error).

Definition generateImage `{Runtime} (this : t) (options : ImageGenerationInput)
  : Async (Exc ImageGenerationResult) :=
  let modelId :=
    default (generation_modelId options) (lit "amazon.titan-image-generator-v2:0") in
  let region := default (generation_region options) (region this) in
  let imageConfig :=
    default (imageConfig options)
      {| width := None; height := None; quality := None;
         cfgScale := None; seed := None |} in
  let client :=
    if JSString.eqb region (ImageAssertions.region this)
    then bedrock this
    else {| client_region := region |} in
  let width := default (width imageConfig) 1024%float in
  let height := default (height imageConfig) 1024%float in
  let quality := default (quality imageConfig) premium in
  let cfgScale := default (cfgScale imageConfig) 8%float in
  let seed := seed imageConfig in
  let command :=
    {| invoke_modelId := modelId;
       invoke_body :=
         JSON_stringify
           (requestBody (prompt options) width height quality cfgScale seed);
       invoke_contentType := lit "application/json";
       invoke_accept := lit "application/json" |} in
  AwaitInvokeModel client command (fun sent =>
    Return (try_catch_rethrow (generateImage_try modelId sent)
              generateImage_catch)).

(** ** [validateImage] *)

(** The template literal [validationPrompt]. *)
Definition validationPrompt (assertionPrompt : jsstring) : jsstring :=
  join [LF]
    [ lit "Analyze the following image and assertions, and return a single JSON object with this structure:";
      [];
      lit "{";
      lit "  " ++ quoted "assertionsMet" ++ lit ": boolean,";
      lit "  " ++ quoted "score" ++ lit ": number,             // confidence score 0-10";
      lit "  " ++ quoted "tone" ++ lit ": string,              // tone classification";
      lit "  " ++ quoted "explanation" ++ lit ": string        // explanation of the evaluation";
      lit "}";
      [];
      lit "SCORING GUIDELINES:";
      lit "10: All assertions perfectly match the image content and style.";
      lit "7-9: Most assertions strongly match with minor discrepancies.";
      lit "4-6: Some assertions partially match with significant gaps.";
      lit "0-3: Few or no assertions match the image content.";
      [];
      lit "TONE CLASSIFICATION:";
      lit "The " ++ quoted "tone" ++ lit " must be one of: "
        ++ join (lit ", ") ImageTone_values;
      [];
      lit "Definitions:";
      lit "- " ++ quoted "dreamy" ++ lit ": surreal, soft, ethereal atmosphere; may appear otherworldly or hazy, not sharp or high contrast. Suitable for styles that evoke a calm or fantastical feeling.";
      lit "- " ++ quoted "photo-realistic" ++ lit ": highly detailed and mimics real-world photography.";
      lit "- " ++ quoted "black-and-white" ++ lit ": grayscale image with no color, may vary in tone depending on contrast and texture.";
      [];
      lit "Evaluate the image against this assertion:";
      [DQUOTE] ++ assertionPrompt ++ [DQUOTE];
      [];
      lit "IMPORTANT: " ++ quoted "assertionsMet" ++ lit " should be true only if all key details in the assertion are visually matched in the image." ].

(** [(response.output?.message?.content as ContentBlock[])[0]?.text]:
    the optional chain gives [undefined] as soon as a level is missing,
    and indexing [undefined] throws. *)
Definition first_text `{Runtime} (response : ConverseResponse)
  : Exc (option jsstring) :=
  let content :=
    match response_output response with
    | Some output =>
        match output_message output with
        | Some message => reply_content message
        | None => None
        end
    | None => None
    end in
  match content with
  | None =>
      Throw (ErrorObject (lit "TypeError")
               (TypeError_message JUndefined (lit "0")))
  | Some [] => Ok None
  | Some (block :: _) => Ok (block_text block)
  end.

(** [cleanedResponse] *)
Definition cleanedResponse (content : jsstring) : jsstring :=
  trim
    (RegExp.replace_all RegExp.re_newline          (* remove newlines *)
       (RegExp.replace_first RegExp.re_fence       (* code block end *)
          (RegExp.replace_first RegExp.re_fence_json   (* code block start *)
             content))).

(** [jsonMatch]: [None] is [null], [Some m] is an array with [m] at
    index 0. *)
Definition jsonMatch (content : jsstring) : option jsstring :=
  RegExp.match_ RegExp.re_braces (cleanedResponse content).

(** [lhs && rhs]: the right operand is evaluated only when the left one
    is truthy. *)
Definition and_then (lhs : JSValue) (rhs : Exc JSValue) : Exc JSValue :=
  if ToBoolean lhs then rhs else Ok lhs.

(** From [const result = JSON.parse(..)] to the [return]. *)
Definition verdict_of `{Runtime} (confidenceThreshold : float)
  (result : JSValue) : Exc ImageAssertionResponse :=
  (result_score <- Get result (lit "score") ;;
   assertionsMet <-
     and_then (JBool (ge result_score (JNumber confidenceThreshold)))
       (Get result (lit "assertionsMet")) ;;
   score <- Get result (lit "score") ;;
   tone <- Get result (lit "tone") ;;
   explanation <- Get result (lit "explanation") ;;
   Ok {| assertionsMet := assertionsMet;
         score := score;
         tone := tone;
         explanation := explanation |})%exc.

(** What [validateImage] does once [client.send] has settled. *)
Definition validateImage_continue `{Runtime} (confidenceThreshold : float)
  (sent : Exc ConverseResponse) : Exc ImageAssertionResponse :=
  (response <- sent ;;
   content <- first_text response ;;
   if negb (truthy_string content)
   then Throw (Error (lit "No validation output received from model"))
   else
     match jsonMatch (default content []) with
     | None =>
         Throw (Error (lit "Model response did not include a valid JSON block"))
     | Some matched =>
         result <- parse (trim matched) ;;
         verdict_of confidenceThreshold result
     end)%exc.

Definition validateImage `{Runtime} (this : t) (options : ImageAssertionsInput)
  : Async (Exc ImageAssertionResponse) :=
  let imageBytes := input_imageBytes options in
  let base64Image := input_base64Image options in
  let modelId := default (input_modelId options) (lit "us.amazon.nova-premier-v1:0") in
  let confidenceThreshold := default (confidenceThreshold options) 7%float in
  let temperature := default (temperature options) 0.3%float in
  let topP := default (topP options) 0.7%float in
  let maxTokensToSample := default (maxTokensToSample options) 500%float in
  if negb (truthy_bytes imageBytes) && negb (truthy_string base64Image)
  then Return (Throw (Error (lit "Either imageBytes or base64Image must be provided")))
  else if negb (truthy_string (assertionPrompt options))
  then Return (Throw (Error (lit "Assertion prompt is required")))
  else
    let validationPrompt :=
      validationPrompt (default (assertionPrompt options) []) in
    (* use raw bytes if available, otherwise convert from base64 *)
    let bytesToUse :=
      match imageBytes with
      | Some bytes => bytes
      | None => Buffer_from_base64 (default base64Image [])
      end in
    let input :=
      {| converse_modelId := modelId;
         converse_messages :=
           [ {| message_role := USER;
                message_content :=
                  [ TextBlock validationPrompt; ImageBlock PNG bytesToUse ] |} ];
         converse_inferenceConfig :=
           {| config_temperature := temperature;
              config_topP := topP;
              config_maxTokens := maxTokensToSample |} |} in
    AwaitConverse (bedrock this) input (fun sent =>
      Return (validateImage_continue confidenceThreshold sent)).

(** ** The guards, for the statements below *)

(** The first guard of [validateImage] passes. *)
Definition has_image (options : ImageAssertionsInput) : bool :=
  truthy_bytes (input_imageBytes options)
  || truthy_string (input_base64Image options).

(** The second guard of [validateImage] passes. *)
Definition has_assertion (options : ImageAssertionsInput) : bool :=
  truthy_string (assertionPrompt options).

(** The threshold in force: the caller's, or 7. *)
Definition threshold_of (options : ImageAssertionsInput) : float :=
  default (confidenceThreshold options) 7%float.

(** [options] with [assertionPrompt] left out. *)
Definition without_assertionPrompt (options : ImageAssertionsInput)
  : ImageAssertionsInput :=
  {| input_imageBytes := input_imageBytes options;
     input_base64Image := input_base64Image options;
     assertionPrompt := None;
     input_modelId := input_modelId options;
     confidenceThreshold := confidenceThreshold options;
     temperature := temperature options;
     topP := topP options;
     maxTokensToSample := maxTokensToSample options |}.

End ImageAssertions.

(* ================================================================== *)
(** * The Jest matcher [toSatisfyImageAssertions] *)

Module Matcher.
Import ImageAssertions.

(** [Partial<ImageAssertionResponse>] as [Object.entries] lists it. *)
Definition Expected := list (jsstring * JSValue).

(** [this.utils] of Jest. *)
Class MatcherUtils := {
  printReceived : ImageAssertionResponse -> jsstring;
  printExpected : Expected -> jsstring
}.

Record CustomMatcherResult := { pass : bool; message : jsstring }.

(** The members that an object literal inherits from
    [Object.prototype]. *)
Definition Object_prototype_keys : list jsstring :=
  List.map lit
    [ "constructor"; "hasOwnProperty"; "isPrototypeOf";
      "propertyIsEnumerable"; "toLocaleString"; "toString"; "valueOf";
      "__proto__"; "__defineGetter__"; "__defineSetter__";
      "__lookupGetter__"; "__lookupSetter__" ]%string.

(** [received[key]]: an own field, [undefined], or [None] for an
    inherited member, which is a function or an object. *)
Definition received_property (received : ImageAssertionResponse)
  (key : jsstring) : option JSValue :=
  if JSString.eqb key (lit "assertionsMet") then Some (assertionsMet received)
  else if JSString.eqb key (lit "score") then Some (score received)
  else if JSString.eqb key (lit "tone") then Some (tone received)
  else if JSString.eqb key (lit "explanation") then Some (explanation received)
  else if existsb (JSString.eqb key) Object_prototype_keys then None
  else Some JUndefined.

(** The callback of [every]. *)
Definition entry_holds `{Runtime} (received : ImageAssertionResponse)
  (entry : jsstring * JSValue) : bool :=
  let (key, value) := entry in
  if JSString.eqb key (lit "assertionsMet")
  then strict_equals (assertionsMet received) value
  else if JSString.eqb key (lit "score")
  then ge (score received) value
  else if JSString.eqb key (lit "tone")
  then strict_equals (tone received) value
  else match received_property received key with
       | Some v => strict_equals v value
       | None => false
       end.

Definition toSatisfyImageAssertions `{Runtime} `{MatcherUtils}
  (received : ImageAssertionResponse) (expected : Expected)
  : CustomMatcherResult :=
  let pass := forallb (entry_holds received) expected in
  if pass
  then {| pass := true;
          message :=
            lit "Expected " ++ printReceived received
              ++ lit " not to satisfy image assertions "
              ++ printExpected expected |}
  else {| pass := false;
          message :=
            lit "Expected " ++ printReceived received
              ++ lit " to satisfy image assertions "
              ++ printExpected expected |}.

(** ** The specification's reading of an entry, for the statements
    below *)

(** The values that are not arrays or objects: those that the declared
    types of a verdict and of an expectation allow. *)
Definition primitive (v : JSValue) : Prop :=
  match v with
  | JArray _ | JObject _ => False
  | _ => True
  end.

(** Exact equality with a primitive value, as the specification words
    it: the same boolean, the same text code unit for code unit,
    [undefined] with [undefined], [null] with [null], and two numbers
    that binary64 holds equal.  It is not defined through
    [strict_equals]. *)
Definition exactly_equal (a b : JSValue) : Prop :=
  match b with
  | JNumber y => exists x, a = JNumber x /\ PrimFloat.eqb x y = true
  | JArray _ | JObject _ => False
  | _ => a = b
  end.

(** What the specification asks of the verdict for the entry
    [key: value] of an expectation: exact equality for [assertionsMet],
    [tone] and any other field, a floor for [score].  A key that names
    no field finds [undefined] in the verdict, unless it names a member
    inherited from [Object.prototype], which equals no such value. *)
Definition expectation_met `{Runtime} (received : ImageAssertionResponse)
  (key : jsstring) (value : JSValue) : Prop :=
  (key = lit "assertionsMet" -> exactly_equal (assertionsMet received) value)
  /\ (key = lit "score" -> ge (score received) value = true)
  /\ (key = lit "tone" -> exactly_equal (tone received) value)
  /\ (key = lit "explanation" -> exactly_equal (explanation received) value)
  /\ (key <> lit "assertionsMet" -> key <> lit "score" ->
      key <> lit "tone" -> key <> lit "explanation" ->
      value = JUndefined /\ ~ In key Object_prototype_keys).

End Matcher.

(* ================================================================== *)
(** * A runtime for the worked examples

    [JSON_parse] is a parser for JSON texts (objects, arrays, strings
    with their escapes, numbers, [true], [false], [null]).  A number
    whose digits are below 2^53 and whose decimal exponent is at most
    22 in size is converted exactly as the engine converts it; beyond
    that the last bit may differ.  The other services are given on the
    inputs that the examples meet: ASCII bytes for [TextDecoder],
    well-formed base64, numerals for StringToNumber, plain objects for
    ToPrimitive; the examples do not read a request body, and
    [JSON_stringify] gives none. *)

Module TestRuntime.

Definition is_json_space (c : N) : bool :=
  ((c =? 32) || (c =? 9) || (c =? 10) || (c =? 13))%N.

Fixpoint skip_ws (s : jsstring) : jsstring :=
  match s with
  | c :: s' => if is_json_space c then skip_ws s' else s
  | [] => []
  end.

Fixpoint strip_prefix (p s : jsstring) : option jsstring :=
  match p, s with
  | [], _ => Some s
  | x :: p', y :: s' => if N.eqb x y then strip_prefix p' s' else None
  | _ :: _, [] => None
  end.

Definition is_digit (c : N) : bool := ((48 <=? c) && (c <=? 57))%N.

Definition hex_digit (c : N) : option N :=
  if is_digit c then Some (c - 48)%N
  else if ((97 <=? c) && (c <=? 102))%N then Some (c - 87)%N
  else if ((65 <=? c) && (c <=? 70))%N then Some (c - 55)%N
  else None.

Definition hex4 (a b c d : N) : option N :=
  match hex_digit a, hex_digit b, hex_digit c, hex_digit d with
  | Some x, Some y, Some z, Some w => Some (((x * 16 + y) * 16 + z) * 16 + w)%N
  | _, _, _, _ => None
  end.

(** The code unit of a one-letter escape. *)
Definition escape (c : N) : option N :=
  if (c =? 34)%N then Some 34%N            (* quote *)
  else if (c =? 92)%N then Some 92%N       (* backslash *)
  else if (c =? 47)%N then Some 47%N       (* slash *)
  else if (c =? 98)%N then Some 8%N        (* b *)
  else if (c =? 102)%N then Some 12%N      (* f *)
  else if (c =? 110)%N then Some 10%N      (* n *)
  else if (c =? 114)%N then Some 13%N      (* r *)
  else if (c =? 116)%N then Some 9%N       (* t *)
  else None.

Definition cons_to (c : N) (r : option (jsstring * jsstring))
  : option (jsstring * jsstring) :=
  match r with
  | Some (str, rest) => Some (c :: str, rest)
  | None => None
  end.

(** The characters of a string after its opening quote, up to and
    including the closing one. *)
Fixpoint string_body (s : jsstring) : option (jsstring * jsstring) :=
  match s with
  | [] => None
  | c :: rest =>
      if (c =? 34)%N then Some ([], rest)
      else if (c =? 92)%N then
        match rest with
        | e :: rest1 =>
            if (e =? 117)%N then
              match rest1 with
              | h1 :: h2 :: h3 :: h4 :: rest2 =>
                  match hex4 h1 h2 h3 h4 with
                  | Some u => cons_to u (string_body rest2)
                  | None => None
                  end
              | _ => None
              end
            else
              match escape e with
              | Some u => cons_to u (string_body rest1)
              | None => None
              end
        | [] => None
        end
      else if (c <? 32)%N then None
      else cons_to c (string_body rest)
  end.

Fixpoint take_digits (s : jsstring) : jsstring * jsstring :=
  match s with
  | c :: s' =>
      if is_digit c
      then let (ds, rest) := take_digits s' in (c :: ds, rest)
      else ([], s)
  | [] => ([], [])
  end.

Definition float_of_digit (c : N) : float :=
  PrimFloat.of_uint63 (Uint63.of_Z (Z.of_N (c - 48))).

Definition float_of_digits (ds : jsstring) : float :=
  fold_left (fun acc d => (acc * 10 + float_of_digit d)%float) ds 0%float.

Fixpoint pow10 (n : nat) : float :=
  match n with
  | O => 1%float
  | S n' => (10 * pow10 n')%float
  end.

Definition nat_of_digits (ds : jsstring) : nat :=
  fold_left (fun acc d => 10 * acc + N.to_nat (d - 48)) ds 0.

(** [-? int frac? exp?] *)
Definition number (s : jsstring) : option (float * jsstring) :=
  let (negative, s) :=
    match s with
    | c :: s' => if (c =? 45)%N then (true, s') else (false, s)
    | [] => (false, s)
    end in
  let (int, s) := take_digits s in
  let int_ok :=
    match int with
    | [] => false
    | [_] => true
    | d :: _ => negb (d =? 48)%N
    end in
  let '(frac, frac_ok, s) :=
    match s with
    | c :: s' =>
        if (c =? 46)%N
        then let (ds, rest) := take_digits s' in
             (ds, match ds with [] => false | _ => true end, rest)
        else ([], true, s)
    | [] => ([], true, s)
    end in
  let '(exp_negative, exp, exp_ok, s) :=
    match s with
    | c :: s' =>
        if ((c =? 101) || (c =? 69))%N then
          let (neg, s'') :=
            match s' with
            | g :: t =>
                if (g =? 45)%N then (true, t)
                else if (g =? 43)%N then (false, t) else (false, s')
            | [] => (false, s')
            end in
          let (ds, rest) := take_digits s'' in
          (neg, nat_of_digits ds, match ds with [] => false | _ => true end, rest)
        else (false, 0, true, s)
    | [] => (false, 0, true, s)
    end in
  if int_ok && frac_ok && exp_ok then
    let m := float_of_digits (int ++ frac) in
    let down := (if exp_negative then exp else 0) + List.length frac in
    let up := if exp_negative then 0 else exp in
    let x :=
      if PrimFloat.eqb m 0 then 0%float
      else if down <=? up then (m * pow10 (up - down))%float
      else (m / pow10 (down - up))%float in
    Some (if negative then (- x)%float else x, s)
  else None.

(** A later member with the same key replaces the value of the earlier
    one. *)
Fixpoint set_prop (key : jsstring) (v : JSValue)
  (props : list (jsstring * JSValue)) : list (jsstring * JSValue) :=
  match props with
  | [] => [(key, v)]
  | (k, old) :: rest =>
      if JSString.eqb k key then (k, v) :: rest
      else (k, old) :: set_prop key v rest
  end.

Definition head_is (c : N) (s : jsstring) : option jsstring :=
  match s with
  | x :: rest => if N.eqb x c then Some rest else None
  | [] => None
  end.

Fixpoint value (fuel : nat) (s : jsstring) {struct fuel}
  : option (JSValue * jsstring) :=
  match fuel with
  | O => None
  | S fuel' =>
      let s := skip_ws s in
      match head_is LBRACE s, head_is 91 s, head_is DQUOTE s with
      | Some rest, _, _ =>
          match head_is RBRACE (skip_ws rest) with
          | Some rest' => Some (JObject [], rest')
          | None => members fuel' rest []
          end
      | _, Some rest, _ =>
          match head_is 93 (skip_ws rest) with
          | Some rest' => Some (JArray [], rest')
          | None => elements fuel' rest []
          end
      | _, _, Some rest =>
          match string_body rest with
          | Some (str, rest') => Some (JString str, rest')
          | None => None
          end
      | None, None, None =>
          match strip_prefix (lit "true") s, strip_prefix (lit "false") s,
                strip_prefix (lit "null") s with
          | Some rest, _, _ => Some (JBool true, rest)
          | _, Some rest, _ => Some (JBool false, rest)
          | _, _, Some rest => Some (JNull, rest)
          | None, None, None =>
              match number s with
              | Some (x, rest) => Some (JNumber x, rest)
              | None => None
              end
          end
      end
  end

with members (fuel : nat) (s : jsstring) (acc : list (jsstring * JSValue))
  {struct fuel} : option (JSValue * jsstring) :=
  match fuel with
  | O => None
  | S fuel' =>
      match head_is DQUOTE (skip_ws s) with
      | None => None
      | Some rest =>
          match string_body rest with
          | None => None
          | Some (key, rest1) =>
              match head_is 58 (skip_ws rest1) with
              | None => None
              | Some rest2 =>
                  match value fuel' rest2 with
                  | None => None
                  | Some (v, rest3) =>
                      let acc' := set_prop key v acc in
                      let rest3 := skip_ws rest3 in
                      match head_is 44 rest3, head_is RBRACE rest3 with
                      | Some rest4, _ => members fuel' rest4 acc'
                      | _, Some rest4 => Some (JObject acc', rest4)
                      | None, None => None
                      end
                  end
              end
          end
      end
  end

with elements (fuel : nat) (s : jsstring) (acc : list JSValue)
  {struct fuel} : option (JSValue * jsstring) :=
  match fuel with
  | O => None
  | S fuel' =>
      match value fuel' s with
      | None => None
      | Some (v, rest) =>
          let acc' := acc ++ [v] in
          let rest := skip_ws rest in
          match head_is 44 rest, head_is 93 rest with
          | Some rest', _ => elements fuel' rest' acc'
          | _, Some rest' => Some (JArray acc', rest')
          | None, None => None
          end
      end
  end.

(** [JSON.parse]: one value, and nothing but white space after it. *)
Definition JSON_parse (text : jsstring) : ParseResult :=
  match value (2 * List.length text + 2) text with
  | Some (v, rest) =>
      match skip_ws rest with
      | [] => Parsed v
      | _ :: _ => SyntaxError (lit "Unexpected non-whitespace character after JSON")
      end
  | None => SyntaxError (lit "Unexpected token or end of JSON input")
  end.

(** The six-bit value of a base64 digit, of either alphabet. *)
Definition sextet (c : N) : option N :=
  if ((65 <=? c) && (c <=? 90))%N then Some (c - 65)%N
  else if ((97 <=? c) && (c <=? 122))%N then Some (c - 71)%N
  else if is_digit c then Some (c + 4)%N
  else if ((c =? 43) || (c =? 45))%N then Some 62%N
  else if ((c =? 47) || (c =? 95))%N then Some 63%N
  else None.

(** The digits of a base64 text up to its padding. *)
Fixpoint sextets (s : jsstring) : list N :=
  match s with
  | [] => []
  | c :: s' =>
      if (c =? 61)%N then []
      else match sextet c with
           | Some v => v :: sextets s'
           | None => sextets s'
           end
  end.

Definition byte_of (n : N) : Byte.byte :=
  match Byte.of_N (n mod 256) with
  | Some b => b
  | None => Byte.x00
  end.

Fixpoint bytes_of_sextets (l : list N) : Uint8Array :=
  match l with
  | a :: b :: c :: d :: rest =>
      byte_of (a * 4 + b / 16) :: byte_of (b * 16 + c / 4)
        :: byte_of (c * 64 + d) :: bytes_of_sextets rest
  | [a; b; c] => [byte_of (a * 4 + b / 16); byte_of (b * 16 + c / 4)]
  | [a; b] => [byte_of (a * 4 + b / 16)]
  | _ => []
  end.

Definition StringToNumber (s : jsstring) : float :=
  match trim s with
  | [] => 0%float
  | t => match number t with
         | Some (x, []) => x
         | _ => PrimFloat.nan
         end
  end.

#[export] Instance node : Runtime := {|
  JS.JSON_parse := JSON_parse;
  JS.JSON_stringify := fun _ => [];
  JS.TextDecoder_decode := List.map Byte.to_N;
  JS.Buffer_from_base64 := fun s => bytes_of_sextets (sextets s);
  JS.Buffer_from_other := fun _ =>
    Throw (ErrorObject (lit "TypeError")
             (lit "The first argument must be of type string or an instance of Buffer, ArrayBuffer, or Array or an Array-like Object."));
  JS.StringToNumber := StringToNumber;
  JS.ObjectToString := fun _ => lit "[object Object]";
  JS.TypeError_message := fun v key =>
    lit "Cannot read properties of "
      ++ match v with JNull => lit "null" | _ => lit "undefined" end
      ++ lit " (reading '" ++ key ++ lit "')"
|}.

End TestRuntime.

(* ================================================================== *)
(** * The kinds of failure

    The program throws plain [Error] objects.  A caller tells the
    failures apart by their messages: the two precondition messages of
    [validateImage], the two messages about the model's reply and the
    [SyntaxError] of [JSON.parse], and the prefix that [generateImage]
    puts before every cause. *)

Module Failure.

Definition is_Error_with (messages : list jsstring) (t : Thrown) : bool :=
  match t with
  | ErrorObject name m =>
      JSString.eqb name (lit "Error") && existsb (JSString.eqb m) messages
  | NonError _ => false
  end.

Definition InvalidInputError : Thrown -> bool :=
  is_Error_with
    [ lit "Either imageBytes or base64Image must be provided";
      lit "Assertion prompt is required" ].

Definition ValidationError (t : Thrown) : bool :=
  is_Error_with
    [ lit "No validation output received from model";
      lit "Model response did not include a valid JSON block" ] t
  || match t with
     | ErrorObject name _ => JSString.eqb name (lit "SyntaxError")
     | NonError _ => false
     end.

Fixpoint starts_with (p s : jsstring) : bool :=
  match p, s with
  | [], _ => true
  | x :: p', y :: s' => N.eqb x y && starts_with p' s'
  | _ :: _, [] => false
  end.

Definition GenerationError (t : Thrown) : bool :=
  match t with
  | ErrorObject name m =>
      JSString.eqb name (lit "Error")
      && starts_with (lit "Image generation failed: ") m
  | NonError _ => false
  end.

End Failure.

(* ================================================================== *)
(** * Worked inputs *)

Module Examples.
Import ImageAssertions Matcher.

Definition this : ImageAssertions.t := ImageAssertions.new None.

(** A call with a base64 image, an assertion and a threshold. *)
Definition options (threshold : option float) : ImageAssertionsInput :=
  {| input_imageBytes := None;
     input_base64Image := Some (lit "aGVsbG8=");
     assertionPrompt := Some (lit "contains an orange cat, photo-realistic");
     input_modelId := None;
     confidenceThreshold := threshold;
     temperature := None;
     topP := None;
     maxTokensToSample := None |}.

(** A call with neither form of the image. *)
Definition options_without_image : ImageAssertionsInput :=
  {| input_imageBytes := None;
     input_base64Image := None;
     assertionPrompt := Some (lit "contains an orange cat, photo-realistic");
     input_modelId := None;
     confidenceThreshold := None;
     temperature := None;
     topP := None;
     maxTokensToSample := None |}.

(** A call with empty strings for the image and for the assertion. *)
Definition options_with_empty_strings : ImageAssertionsInput :=
  {| input_imageBytes := None;
     input_base64Image := Some [];
     assertionPrompt := Some [];
     input_modelId := None;
     confidenceThreshold := None;
     temperature := None;
     topP := None;
     maxTokensToSample := None |}.

Definition member (key : string) (value : jsstring) : jsstring :=
  quoted key ++ lit ":" ++ value.

Definition object_text (members : list jsstring) : jsstring :=
  lit "{" ++ join (lit ",") members ++ lit "}".

(** The model says true, with score 9. *)
Definition cat_reply : jsstring :=
  object_text
    [ member "assertionsMet" (lit "true");
      member "score" (lit "9");
      member "tone" (quoted "photo-realistic");
      member "explanation" (quoted "An orange cat on a windowsill.") ].

Definition cat_props : list (jsstring * JSValue) :=
  [ (lit "assertionsMet", JBool true);
    (lit "score", JNumber 9);
    (lit "tone", JString (lit "photo-realistic"));
    (lit "explanation", JString (lit "An orange cat on a windowsill.")) ].

(** A score above 10 and a tone outside [ImageTone]. *)
Definition sepia_reply : jsstring :=
  object_text
    [ member "assertionsMet" (lit "true");
      member "score" (lit "42");
      member "tone" (quoted "sepia");
      member "explanation" (quoted "Brown.") ].

Definition sepia_props : list (jsstring * JSValue) :=
  [ (lit "assertionsMet", JBool true);
    (lit "score", JNumber 42);
    (lit "tone", JString (lit "sepia"));
    (lit "explanation", JString (lit "Brown.")) ].

(** An explanation that quotes a fence marker. *)
Definition marker_reply : jsstring :=
  object_text
    [ member "assertionsMet" (lit "true");
      member "score" (lit "9");
      member "tone" (quoted "dreamy");
      member "explanation" (quoted "x```json y") ].

(** [j] between the fences of a markdown code block. *)
Definition fenced (j : jsstring) : jsstring :=
  lit "```json" ++ [LF] ++ j ++ [LF] ++ lit "```".

(** The answers of a service that a run does not ask. *)
Definition no_invoke : InvokeModelCommand -> Exc InvokeModelResponse :=
  fun _ => Throw (Error (lit "not mocked")).

Definition no_converse : ConverseCommandInput -> Exc ConverseResponse :=
  fun _ => Throw (Error (lit "not mocked")).

(** A service that answers every conversation with [cat_reply]. *)
Definition cat_service : Service nat :=
  mock no_invoke (fun _ => Ok (text_reply cat_reply)).

Definition generation_options : ImageGenerationInput :=
  {| prompt := lit "A fluffy orange cat sitting on a windowsill";
     generation_modelId := None;
     generation_region := None;
     imageConfig := None |}.

(** The ASCII bytes of a text. *)
Definition bytes_of (text : jsstring) : Uint8Array :=
  List.map TestRuntime.byte_of text.

Definition images_body (images : jsstring) : Uint8Array :=
  bytes_of (object_text [ member "images" images ]).

Definition verdict : ImageAssertionResponse :=
  {| assertionsMet := JBool true;
     score := JNumber 9;
     tone := JString (lit "photo-realistic");
     explanation := JString (lit "An orange cat on a windowsill.") |}.

#[export] Instance utils : MatcherUtils := {|
  printReceived := fun _ => lit "<received>";
  printExpected := fun _ => lit "<expected>"
|}.

End Examples.

Unset Implicit Arguments.

(* ================================================================== *)
(** * What a method sends, and more worked inputs *)

Module Sent.

(** The first call of a method, when it is a conversation: the client
    and the input of the [ConverseCommand]. *)
Definition conversation {A} (p : Async A)
  : option (BedrockRuntimeClient * ConverseCommandInput) :=
  match p with
  | AwaitConverse client input _ => Some (client, input)
  | _ => None
  end.

(** The first call of a method, when it is a model invocation. *)
Definition invocation {A} (p : Async A)
  : option (BedrockRuntimeClient * InvokeModelCommand) :=
  match p with
  | AwaitInvokeModel client command _ => Some (client, command)
  | _ => None
  end.

(** The bytes of the image parts of an input, in order. *)
Definition image_bytes (input : ConverseCommandInput) : list Uint8Array :=
  flat_map
    (fun m =>
       flat_map
         (fun b => match b with ImageBlock _ bytes => [bytes] | _ => [] end)
         (message_content m))
    (converse_messages input).

(** The text parts of an input, in order. *)
Definition texts (input : ConverseCommandInput) : list jsstring :=
  flat_map
    (fun m =>
       flat_map
         (fun b => match b with TextBlock t => [t] | _ => [] end)
         (message_content m))
    (converse_messages input).

End Sent.

Module MoreExamples.
Import ImageAssertions Matcher Examples.

(** A call with both forms of the image; the raw bytes are empty. *)
Definition options_with_both : ImageAssertionsInput :=
  {| input_imageBytes := Some [];
     input_base64Image := Some (lit "aGVsbG8=");
     assertionPrompt := Some (lit "contains an orange cat, photo-realistic");
     input_modelId := None;
     confidenceThreshold := None;
     temperature := None;
     topP := None;
     maxTokensToSample := None |}.

(** The model leaves the score out. *)
Definition scoreless_reply : jsstring :=
  object_text
    [ member "assertionsMet" (lit "true");
      member "tone" (quoted "dreamy") ].

Definition scoreless_props : list (jsstring * JSValue) :=
  [ (lit "assertionsMet", JBool true);
    (lit "tone", JString (lit "dreamy")) ].

(** The model answers [assertionsMet] with a string. *)
Definition yes_reply : jsstring :=
  object_text
    [ member "assertionsMet" (quoted "yes");
      member "score" (lit "9") ].

Definition yes_props : list (jsstring * JSValue) :=
  [ (lit "assertionsMet", JString (lit "yes"));
    (lit "score", JNumber 9) ].

(** A reply with no [output]. *)
Definition empty_response : ConverseResponse :=
  {| response_output := None |}.

(** A reply whose content is the given blocks. *)
Definition blocks_reply (blocks : list ContentBlock) : ConverseResponse :=
  {| response_output :=
       Some {| output_message :=
                 Some {| reply_content := Some blocks |} |} |}.

Definition generation_options_in (region : jsstring) : ImageGenerationInput :=
  {| prompt := lit "A fluffy orange cat sitting on a windowsill";
     generation_modelId := None;
     generation_region := Some region;
     imageConfig := None |}.

(** A call that gives the image as base64 text, with an assertion and
    nothing else. *)
Definition options_from (image assertion : jsstring) : ImageAssertionsInput :=
  {| input_imageBytes := None;
     input_base64Image := Some image;
     assertionPrompt := Some assertion;
     input_modelId := None;
     confidenceThreshold := None;
     temperature := None;
     topP := None;
     maxTokensToSample := None |}.

End MoreExamples.

(* ================================================================== *)
(** * Facts about strings and patterns *)

Lemma jsstring_eqb_eq (a b : jsstring) : JSString.eqb a b = true <-> a = b.
Proof.
  revert b. induction a as [|x a IH]; intros [|y b]; simpl; split;
    try congruence; try reflexivity.
  - intros H. apply andb_true_iff in H as [Hx Hab].
    apply N.eqb_eq in Hx. apply IH in Hab. congruence.
  - intros H. injection H as -> ->. rewrite N.eqb_refl. simpl. now apply IH.
Qed.

Lemma jsstring_eqb_refl (a : jsstring) : JSString.eqb a a = true.
Proof. now apply jsstring_eqb_eq. Qed.

Lemma trimStart_suffix s : exists w, s = w ++ trimStart s.
Proof.
  induction s as [|c s [w IH]]; simpl.
  - now exists [].
  - destruct (is_space c).
    + exists (c :: w). simpl. now rewrite <- IH.
    + now exists [].
Qed.

Lemma trimStart_In c s : In c (trimStart s) -> In c s.
Proof.
  destruct (trimStart_suffix s) as [w E]. intros H. rewrite E.
  apply in_or_app. now right.
Qed.

Lemma trim_In c s : In c (trim s) -> In c s.
Proof.
  unfold trim, trimEnd. intros H.
  apply in_rev in H. apply trimStart_In in H. apply in_rev in H.
  now apply trimStart_In.
Qed.

Module RegExpFacts.
Import RegExp.

(** A match is a prefix of the text it is found in. *)
Lemma star_split p k :
  (forall s m rest, k s = Some (m, rest) -> s = m ++ rest) ->
  forall s m rest, star p k s = Some (m, rest) -> s = m ++ rest.
Proof.
  intros Hk. induction s as [|c s IH]; simpl; intros m rest H.
  - now apply Hk.
  - destruct (p c).
    + destruct (star p k s) as [[m' rest']|] eqn:E.
      * injection H as <- <-. simpl. f_equal. now apply IH.
      * now apply Hk.
    + now apply Hk.
Qed.

Lemma exec_at_split r : forall s m rest,
  exec_at r s = Some (m, rest) -> s = m ++ rest.
Proof.
  induction r as [|[p|p] r IH]; simpl; intros s m rest H.
  - now injection H as <- <-.
  - destruct s as [|c s]; [discriminate|].
    destruct (p c); [|discriminate].
    destruct (exec_at r s) as [[m' rest']|] eqn:E; [|discriminate].
    injection H as <- <-. simpl. f_equal. now apply IH.
  - revert H. now apply star_split.
Qed.

Lemma exec_split r : forall s before m rest,
  exec r s = Some (before, m, rest) -> s = before ++ m ++ rest.
Proof.
  induction s as [|c s IH]; simpl; intros before m rest H.
  - destruct (exec_at r []) as [[m' rest']|] eqn:E; [|discriminate].
    injection H as <- <- <-. now apply exec_at_split in E.
  - destruct (exec_at r (c :: s)) as [[m' rest']|] eqn:E.
    + injection H as <- <- <-. now apply exec_at_split in E.
    + destruct (exec r s) as [[[b' m'] rest']|] eqn:E'; [|discriminate].
      injection H as <- <- <-. simpl. f_equal. now apply IH.
Qed.

(** Removing a match adds no code unit. *)
Lemma replace_first_In r c s : In c (replace_first r s) -> In c s.
Proof.
  unfold replace_first.
  destruct (exec r s) as [[[before m] rest]|] eqn:E; [|trivial].
  apply exec_split in E. subst s. rewrite !in_app_iff. tauto.
Qed.

Lemma replace_all_from_In r c : forall fuel s,
  In c (replace_all_from fuel r s) -> In c s.
Proof.
  induction fuel as [|fuel IH]; simpl; intros s H; [assumption|].
  assert (Hcopy :
    In c (match s with [] => [] | x :: s' => x :: replace_all_from fuel r s' end)
    -> In c s).
  { destruct s as [|x s']; simpl; [tauto|]. intros [->|H']; [now left|].
    right. now apply IH. }
  destruct (exec_at r s) as [[[|x m] rest]|] eqn:E; try now apply Hcopy.
  apply exec_at_split in E. subst s. apply IH in H.
  apply in_or_app. now right.
Qed.

Lemma replace_all_In r c s : In c (replace_all r s) -> In c s.
Proof. apply replace_all_from_In. Qed.

Lemma exec_at_chr c s :
  exec_at [chr c] s
  = match s with
    | x :: s' => if N.eqb c x then Some ([x], s') else None
    | [] => None
    end.
Proof. destruct s as [|x s']; [reflexivity|]. unfold chr. simpl. now destruct (N.eqb c x). Qed.

(** [/\n/g] leaves no line feed. *)
Lemma replace_all_newline_from : forall fuel s,
  List.length s < fuel -> ~ In LF (replace_all_from fuel re_newline s).
Proof.
  induction fuel as [|fuel IH]; intros s Hlen; [lia|].
  cbn [replace_all_from]. unfold re_newline. rewrite exec_at_chr.
  destruct s as [|c s]; [simpl; tauto|]. cbn [List.length] in Hlen.
  destruct (N.eqb LF c) eqn:E.
  - apply IH. lia.
  - intros [H|H].
    + apply N.eqb_neq in E. congruence.
    + revert H. apply IH. lia.
Qed.

Lemma replace_all_newline s : ~ In LF (replace_all re_newline s).
Proof. apply replace_all_newline_from. lia. Qed.

Lemma exec_at_braces s :
  exec_at re_braces s
  = match s with
    | x :: s' =>
        if N.eqb LBRACE x then
          match star any (exec_at [chr RBRACE]) s' with
          | Some (m, rest) => Some (x :: m, rest)
          | None => None
          end
        else None
    | [] => None
    end.
Proof. destruct s; reflexivity. Qed.

Lemma exec_cons r c s :
  exec r (c :: s)
  = match exec_at r (c :: s) with
    | Some (m, rest) => Some ([], m, rest)
    | None =>
        match exec r s with
        | Some (before, m, rest) => Some (c :: before, m, rest)
        | None => None
        end
    end.
Proof. reflexivity. Qed.

Lemma replace_all_newline_filter_from : forall fuel s,
  List.length s < fuel ->
  replace_all_from fuel re_newline s
  = filter (fun c => negb (N.eqb LF c)) s.
Proof.
  induction fuel as [|fuel IH]; intros s Hlen; [lia|].
  cbn [replace_all_from]. unfold re_newline. rewrite exec_at_chr.
  destruct s as [|c s]; [reflexivity|]. cbn [List.length filter] in *.
  destruct (N.eqb LF c); cbn [negb].
  - apply IH. lia.
  - f_equal. apply IH. lia.
Qed.

(** [s.replace(/\n/g, '')] keeps the units that are not line feeds. *)
Lemma replace_all_newline_filter s :
  replace_all re_newline s = filter (fun c => negb (N.eqb LF c)) s.
Proof. apply replace_all_newline_filter_from. lia. Qed.

(** [/\{.*\}/s] finds nothing in a text without an opening brace. *)
Lemma exec_braces_none s : ~ In LBRACE s -> exec re_braces s = None.
Proof.
  induction s as [|c s IH]; intros H; [reflexivity|].
  rewrite exec_cons, exec_at_braces.
  destruct (N.eqb LBRACE c) eqn:E.
  - apply N.eqb_eq in E. exfalso. apply H. now left.
  - rewrite IH; [reflexivity|]. intros H'. apply H. now right.
Qed.

(** After the opening brace, [.*\}] runs to the last closing brace. *)
Lemma star_to_last_brace_none post :
  ~ In RBRACE post -> star any (exec_at [chr RBRACE]) post = None.
Proof.
  induction post as [|c post IH]; intros H; cbn [star any].
  - reflexivity.
  - rewrite IH by (intros H'; apply H; now right).
    rewrite exec_at_chr.
    destruct (N.eqb RBRACE c) eqn:E; [|reflexivity].
    apply N.eqb_eq in E. exfalso. apply H. now left.
Qed.

Lemma star_to_last_brace mid post :
  ~ In RBRACE post ->
  star any (exec_at [chr RBRACE]) (mid ++ RBRACE :: post)
  = Some (mid ++ [RBRACE], post).
Proof.
  intros H. induction mid as [|c mid IH].
  - cbn [app star any]. rewrite star_to_last_brace_none by assumption.
    rewrite exec_at_chr, N.eqb_refl. reflexivity.
  - cbn [app star any]. cbn [app] in IH. now rewrite IH.
Qed.

Lemma exec_braces pre mid post :
  ~ In LBRACE pre -> ~ In RBRACE post ->
  exec re_braces (pre ++ LBRACE :: mid ++ RBRACE :: post)
  = Some (pre, LBRACE :: mid ++ [RBRACE], post).
Proof.
  intros Hpre Hpost. induction pre as [|c pre IH].
  - cbn [app]. rewrite exec_cons, exec_at_braces, N.eqb_refl.
    now rewrite star_to_last_brace by assumption.
  - cbn [app]. rewrite exec_cons, exec_at_braces.
    destruct (N.eqb LBRACE c) eqn:E.
    + apply N.eqb_eq in E. exfalso. apply Hpre. now left.
    + cbn [app] in IH. rewrite IH; [reflexivity|].
      intros H'. apply Hpre. now right.
Qed.

End RegExpFacts.

(* ================================================================== *)
(** * Facts about numbers *)

Module NumberFacts.

Lemma SFcompare_swap x y :
  SFcompare y x = option_map CompOpp (SFcompare x y).
Proof.
  destruct x as [sx|sx| |sx mx ex], y as [sy|sy| |sy my ey]; simpl;
    try reflexivity; try (destruct sx; reflexivity);
    try (destruct sy; reflexivity); try (destruct sx, sy; reflexivity).
  destruct sx, sy; simpl; try reflexivity.
  all: rewrite (Z.compare_antisym ey ex); destruct (ey ?= ex)%Z; simpl;
    try reflexivity.
  all: rewrite (Pos.compare_cont_antisym mx my Eq); simpl.
  all: destruct (Pos.compare_cont Eq mx my); reflexivity.
Qed.

Lemma is_nan_spec a :
  PrimFloat.is_nan a
  = match Prim2SF a with S754_nan => true | _ => false end.
Proof.
  unfold PrimFloat.is_nan. rewrite FloatAxioms.eqb_spec. unfold SFeqb.
  destruct (Prim2SF a) as [s|s| |s m e]; try reflexivity.
  - destruct s; reflexivity.
  - simpl. rewrite Z.compare_refl, Pos.compare_cont_refl.
    destruct s; reflexivity.
Qed.

(** [b <= a] holds exactly when neither is NaN and [a < b] fails. *)
Lemma leb_ltb_swap a b :
  PrimFloat.leb b a
  = negb (PrimFloat.is_nan a || PrimFloat.is_nan b)
    && negb (PrimFloat.ltb a b).
Proof.
  rewrite !is_nan_spec, FloatAxioms.leb_spec, FloatAxioms.ltb_spec.
  unfold SFleb, SFltb. rewrite (SFcompare_swap (Prim2SF a) (Prim2SF b)).
  destruct (Prim2SF a) as [sx|sx| |sx mx ex],
           (Prim2SF b) as [sy|sy| |sy my ey]; try reflexivity.
  all: cbn [negb orb andb].
  all: destruct (SFcompare _ _) as [[ | | ]|] eqn:E; try reflexivity.
  all: simpl in E; try discriminate.
Qed.

Lemma ltb_not_leb a b :
  PrimFloat.ltb a b = true -> PrimFloat.leb b a = false.
Proof.
  intros H. rewrite leb_ltb_swap, H. apply andb_false_r.
Qed.

Lemma digits2_pos_iter p k :
  digits2_pos (Pos.iter xO p k) = (digits2_pos p + k)%positive.
Proof.
  induction k using Pos.peano_ind.
  - simpl. lia.
  - rewrite Pos.iter_succ. simpl. rewrite IHk. lia.
Qed.

Lemma digits2_pos_lower p : (2 ^ (Zpos (digits2_pos p) - 1) <= Zpos p)%Z.
Proof.
  induction p; simpl digits2_pos.
  - replace (Z.pos (Pos.succ (digits2_pos p)) - 1)%Z
      with (Z.succ (Zpos (digits2_pos p) - 1))%Z by lia.
    rewrite Z.pow_succ_r by lia. lia.
  - replace (Z.pos (Pos.succ (digits2_pos p)) - 1)%Z
      with (Z.succ (Zpos (digits2_pos p) - 1))%Z by lia.
    rewrite Z.pow_succ_r by lia. lia.
  - simpl. lia.
Qed.

(** A positive integer below 2^53 rounds to a finite, nonzero
    binary64 value. *)
Lemma binary_round_small p :
  (Zpos p < 2 ^ 53)%Z ->
  exists m e, binary_round prec emax false p 0 = S754_finite false m e.
Proof.
  intros Hp.
  assert (Hd : (Zpos (digits2_pos p) <= 53)%Z).
  { pose proof (digits2_pos_lower p) as L.
    destruct (Z_le_gt_dec (Zpos (digits2_pos p)) 53) as [|G];
      [assumption|exfalso].
    assert ((2 ^ 53 <= 2 ^ (Z.pos (digits2_pos p) - 1))%Z)
      by (apply Z.pow_le_mono_r; lia).
    lia. }
  unfold binary_round.
  assert (Hf : fexp prec emax (Z.pos (digits2_pos p) + 0)
               = (Z.pos (digits2_pos p) - 53)%Z).
  { unfold fexp, emin, prec, emax. lia. }
  rewrite Hf. unfold shl_align.
  replace (Z.pos (digits2_pos p) - 53 - 0)%Z
    with (Z.pos (digits2_pos p) - 53)%Z by lia.
  destruct (Z.pos (digits2_pos p) - 53)%Z as [|q|q] eqn:Eq; try lia.
  - unfold binary_round_aux, shr_fexp. cbn [shr_record_of_loc Zdigits2].
    assert (Hf2 : (fexp prec emax (Z.pos (digits2_pos p) + 0) - 0 = 0)%Z)
      by (rewrite Hf; lia).
    rewrite Hf2. cbn [shr shr_m loc_of_shr_record round_nearest_even Zdigits2].
    rewrite Hf2. cbn [shr shr_m].
    eexists _, _. reflexivity.
  - unfold binary_round_aux, shr_fexp. cbn [shr_record_of_loc Zdigits2].
    rewrite digits2_pos_iter.
    assert (Hf2 : (fexp prec emax (Z.pos (digits2_pos p + q) + Z.neg q)
                   - Z.neg q = 0)%Z).
    { unfold fexp, emin, prec, emax. lia. }
    rewrite Hf2. cbn [shr shr_m loc_of_shr_record round_nearest_even Zdigits2].
    rewrite digits2_pos_iter, Hf2. cbn [shr shr_m].
    assert (Hle : (Z.neg q <=? emax - prec)%Z = true)
      by (apply Z.leb_le; unfold emax, prec; lia).
    rewrite Hle. eexists _, _. reflexivity.
Qed.

Lemma of_Z_nonzero z :
  (0 < z < 2 ^ 53)%Z ->
  PrimFloat.eqb (PrimFloat.of_uint63 (Uint63.of_Z z)) 0 = false.
Proof.
  intros Hz. rewrite FloatAxioms.eqb_spec, of_uint63_spec.
  rewrite Uint63.of_Z_spec, Z.mod_small.
  2:{ change wB with (2 ^ 63)%Z. split; [lia|].
      assert (2 ^ 53 < 2 ^ 63)%Z by (apply Z.pow_lt_mono_r; lia). lia. }
  destruct z as [|p|p]; try lia.
  unfold binary_normalize.
  destruct (binary_round_small p) as (m & e & ->); [lia|].
  reflexivity.
Qed.

(** The length of a list is the number 0 exactly when the list is
    empty. *)
Lemma number_of_length_zero n :
  PrimFloat.eqb (number_of_length n) 0 = Nat.eqb n 0.
Proof.
  destruct n as [|n]; [reflexivity|].
  unfold number_of_length. cbn [Nat.eqb]. apply of_Z_nonzero. lia.
Qed.

End NumberFacts.

(* ================================================================== *)
(** * Facts about the fences of a code block *)

Module FenceFacts.
Import RegExp ImageAssertions Examples.

Lemma trimStart_app_stop a c b :
  is_space c = false -> trimStart (a ++ c :: b) = trimStart a ++ c :: b.
Proof.
  intros Hc. induction a as [|x a IH]; cbn [app trimStart].
  - now rewrite Hc.
  - now destruct (is_space x).
Qed.

Lemma trimStart_spaces w s :
  Forall (fun c => is_space c = true) w -> trimStart (w ++ s) = trimStart s.
Proof.
  induction 1 as [|c w Hc _ IH]; cbn [app trimStart]; [reflexivity|].
  now rewrite Hc.
Qed.

Lemma trimStart_split s :
  exists w, Forall (fun c => is_space c = true) w /\ s = w ++ trimStart s.
Proof.
  induction s as [|c s (w & Hw & E)]; cbn [trimStart].
  - exists []. now split.
  - destruct (is_space c) eqn:Hc.
    + exists (c :: w). split; [now constructor|]. cbn [app]. now f_equal.
    + exists []. now split.
Qed.

Lemma filter_spaces (f : N -> bool) w :
  Forall (fun c => is_space c = true) w ->
  Forall (fun c => is_space c = true) (filter f w).
Proof.
  induction 1 as [|c w Hc _ IH]; cbn [filter]; [constructor|].
  destruct (f c); [now constructor|assumption].
Qed.

(** Trimming after a filter does not see a trim before it. *)
Lemma trim_filter_trimStart (f : N -> bool) s :
  trim (filter f (trimStart s)) = trim (filter f s).
Proof.
  destruct (trimStart_split s) as (w & Hw & E).
  unfold trim. f_equal. rewrite E at 2. rewrite filter_app.
  rewrite trimStart_spaces by now apply filter_spaces.
  reflexivity.
Qed.

(** [\s*] at the end of a pattern takes the white space there is. *)
Lemma star_space_end s :
  exists w, star is_space (exec_at []) s = Some (w, trimStart s).
Proof.
  induction s as [|c s [w IH]]; cbn [star trimStart].
  - now exists [].
  - destruct (is_space c).
    + rewrite IH. now exists (c :: w).
    + now exists [].
Qed.

Lemma exec_at_literal p r s :
  exec_at (List.map chr p ++ r) (p ++ s)
  = match exec_at r s with
    | Some (m, rest) => Some (p ++ m, rest)
    | None => None
    end.
Proof.
  induction p as [|c p IH]; cbn [List.map app exec_at].
  - now destruct (exec_at r s) as [[m rest]|].
  - unfold chr at 1. rewrite N.eqb_refl, IH.
    now destruct (exec_at r s) as [[m rest]|].
Qed.

Lemma exec_found r s m rest :
  exec_at r s = Some (m, rest) -> exec r s = Some ([], m, rest).
Proof. intros H. destruct s; cbn [exec]; now rewrite H. Qed.

(** A pattern that starts with a literal skips the text without it. *)
Lemma exec_literal_skip c r v s :
  ~ In c v ->
  exec (chr c :: r) (v ++ s)
  = match exec (chr c :: r) s with
    | Some (before, m, rest) => Some (v ++ before, m, rest)
    | None => None
    end.
Proof.
  intros Hv. induction v as [|x v IH]; cbn [app].
  - now destruct (exec (chr c :: r) s) as [[[b m] rest]|].
  - cbn [exec exec_at]. unfold chr at 1.
    destruct (N.eqb c x) eqn:E.
    + apply N.eqb_eq in E. exfalso. apply Hv. now left.
    + rewrite IH by (intros H; apply Hv; now right).
      now destruct (exec (chr c :: r) s) as [[[b m] rest]|].
Qed.

Lemma exec_literal_none c r s : ~ In c s -> exec (chr c :: r) s = None.
Proof.
  intros Hs. rewrite <- (app_nil_r s), (exec_literal_skip c r s [] Hs).
  reflexivity.
Qed.

Lemma replace_first_fence_absent r s :
  ~ In BACKTICK s -> replace_first (chr BACKTICK :: r) s = s.
Proof.
  intros Hs. unfold replace_first. now rewrite exec_literal_none.
Qed.

(** A reply without a backtick is cleaned to the same text between
    fences as without them. *)
Lemma cleanedResponse_fenced j :
  ~ In BACKTICK j -> cleanedResponse (fenced j) = cleanedResponse j.
Proof.
  intros Hj. unfold cleanedResponse.
  change re_fence_json with (chr BACKTICK :: List.tl re_fence_json) at 2.
  change re_fence with (chr BACKTICK :: List.tl re_fence) at 2.
  rewrite !(replace_first_fence_absent _ j Hj).
  (* the start marker *)
  assert (Hstart : replace_first re_fence_json (fenced j)
                   = trimStart (j ++ [LF]) ++ lit "```").
  { unfold replace_first, fenced, re_fence_json.
    destruct (star_space_end ([LF] ++ j ++ [LF] ++ lit "```")) as [w Hw].
    rewrite (exec_found _ _ (lit "```json" ++ w)
               (trimStart ([LF] ++ j ++ [LF] ++ lit "```"))).
    2:{ rewrite exec_at_literal.
        change (exec_at [Star is_space]) with (star is_space (exec_at [])).
        now rewrite Hw. }
    cbn [app]. change (trimStart (LF :: ?s)) with (trimStart s).
    change (j ++ LF :: lit "```") with (j ++ LF :: BACKTICK :: lit "``").
    replace (j ++ LF :: BACKTICK :: lit "``")
      with ((j ++ [LF]) ++ BACKTICK :: lit "``")
      by now rewrite <- app_assoc.
    now rewrite trimStart_app_stop. }
  rewrite Hstart.
  (* the end marker *)
  assert (Hend : replace_first re_fence (trimStart (j ++ [LF]) ++ lit "```")
                 = trimStart (j ++ [LF])).
  { unfold replace_first.
    change re_fence with (chr BACKTICK :: List.tl re_fence).
    rewrite exec_literal_skip.
    - change (exec (chr BACKTICK :: List.tl re_fence) (lit "```"))
        with (Some (@nil N, lit "```", @nil N)).
      cbv beta iota. now rewrite !app_nil_r.
    - intros H. apply trimStart_In in H. apply in_app_or in H as [H|H].
      + now apply Hj.
      + destruct H as [H|[]]. discriminate H. }
  rewrite Hend, !RegExpFacts.replace_all_newline_filter.
  rewrite trim_filter_trimStart, filter_app. cbn [filter].
  replace (negb (N.eqb LF LF)) with false by reflexivity.
  now rewrite app_nil_r.
Qed.

End FenceFacts.

(* ================================================================== *)
(** * [validateImage] *)

Section ValidateImage.
Import ImageAssertions Failure.
Context `{rt : Runtime}.

(** With both guards passed, the method makes one call and settles to
    what [validateImage_continue] makes of the answer. *)
Lemma validateImage_awaits this options :
  has_image options = true -> has_assertion options = true ->
  exists input,
    validateImage this options
    = AwaitConverse (bedrock this) input (fun sent =>
        Return (validateImage_continue (threshold_of options) sent)).
Proof.
  unfold has_image, has_assertion, validateImage. intros Hi Ha.
  rewrite <- negb_orb, Hi, Ha. cbn [negb]. eexists. reflexivity.
Qed.

Lemma validateImage_settle this options invoke sent :
  has_image options = true -> has_assertion options = true ->
  settle invoke (fun _ => sent) (validateImage this options)
  = validateImage_continue (threshold_of options) sent.
Proof.
  intros Hi Ha.
  destruct (validateImage_awaits this options Hi Ha) as [input ->].
  reflexivity.
Qed.

Lemma jsonMatch_nonempty content matched :
  jsonMatch content = Some matched -> truthy_string (Some content) = true.
Proof. destruct content; [discriminate|reflexivity]. Qed.

(** The answer of the model read as far as [JSON.parse]. *)
Lemma validateImage_continue_text threshold content matched :
  jsonMatch content = Some matched ->
  validateImage_continue threshold (Ok (text_reply content))
  = JS.bind (parse (trim matched)) (verdict_of threshold).
Proof.
  intros Hm. unfold validateImage_continue, text_reply, first_text.
  cbn [JS.bind response_output output_message reply_content block_text].
  rewrite (jsonMatch_nonempty content matched Hm). cbn [negb default]. now rewrite Hm.
Qed.

(** On operands that are numbers, [>=] is the comparison of binary64. *)
Lemma ge_numbers a b : ge (JNumber a) (JNumber b) = PrimFloat.leb b a.
Proof.
  unfold ge, IsLessThan. cbn [ToPrimitive ToNumber].
  rewrite NumberFacts.leb_ltb_swap.
  destruct (PrimFloat.is_nan a || PrimFloat.is_nan b); [reflexivity|].
  now destruct (PrimFloat.ltb a b).
Qed.

(** The verdict made from a parsed object. *)
Lemma verdict_of_object threshold props :
  verdict_of threshold (JObject props)
  = Ok {| assertionsMet :=
            if ge (lookup (lit "score") props) (JNumber threshold)
            then lookup (lit "assertionsMet") props
            else JBool false;
          score := lookup (lit "score") props;
          tone := lookup (lit "tone") props;
          explanation := lookup (lit "explanation") props |}.
Proof.
  unfold verdict_of, Get, and_then. cbn [JS.bind ToBoolean].
  now destruct (ge _ _).
Qed.

(** C1.  When the reply parses to an object with score [s] and boolean
    [b], the verdict's [assertionsMet] is [b && (threshold <= s)]: it is
    true only if the model said true and the score reaches the
    threshold, and it is false whenever the threshold is above the
    score, whatever [b]. *)
Theorem validateImage_threshold_gate
  this options invoke content matched props (s : float) (b : bool) :
  has_image options = true ->
  has_assertion options = true ->
  jsonMatch content = Some matched ->
  JSON_parse (trim matched) = Parsed (JObject props) ->
  lookup (lit "score") props = JNumber s ->
  lookup (lit "assertionsMet") props = JBool b ->
  exists verdict,
    settle invoke (fun _ => Ok (text_reply content))
      (validateImage this options) = Ok verdict
    /\ assertionsMet verdict = JBool (b && PrimFloat.leb (threshold_of options) s)
    /\ (assertionsMet verdict = JBool true ->
        b = true /\ PrimFloat.leb (threshold_of options) s = true)
    /\ (PrimFloat.ltb s (threshold_of options) = true ->
        assertionsMet verdict = JBool false).
Proof.
  intros Hi Ha Hm Hp Hs Hb.
  rewrite (validateImage_settle this options invoke _ Hi Ha).
  rewrite (validateImage_continue_text _ content matched Hm). unfold parse. rewrite Hp.
  cbn [JS.bind]. rewrite verdict_of_object, Hs, Hb, ge_numbers.
  eexists. split; [reflexivity|]. cbn [assertionsMet].
  assert (E : (if PrimFloat.leb (threshold_of options) s
               then JBool b else JBool false)
              = JBool (b && PrimFloat.leb (threshold_of options) s)).
  { destruct (PrimFloat.leb _ s), b; reflexivity. }
  rewrite E. repeat split.
  - injection H as H. now apply andb_true_iff in H.
  - injection H as H. now apply andb_true_iff in H.
  - intros Hlt. rewrite (NumberFacts.ltb_not_leb _ _ Hlt).
    now rewrite andb_false_r.
Qed.

(** C7.  When the reply parses to an object, the verdict's [score],
    [tone] and [explanation] are the object's properties as parsed:
    no clamping, no check of the tone against [ImageTone]. *)
Theorem validateImage_fields_pass_through
  this options invoke content matched props :
  has_image options = true ->
  has_assertion options = true ->
  jsonMatch content = Some matched ->
  JSON_parse (trim matched) = Parsed (JObject props) ->
  exists verdict,
    settle invoke (fun _ => Ok (text_reply content))
      (validateImage this options) = Ok verdict
    /\ score verdict = lookup (lit "score") props
    /\ tone verdict = lookup (lit "tone") props
    /\ explanation verdict = lookup (lit "explanation") props.
Proof.
  intros Hi Ha Hm Hp.
  rewrite (validateImage_settle this options invoke _ Hi Ha).
  rewrite (validateImage_continue_text _ content matched Hm). unfold parse. rewrite Hp.
  cbn [JS.bind]. rewrite verdict_of_object.
  eexists. split; [reflexivity|]. now repeat split.
Qed.

(** Cleaning a reply adds no code unit to it. *)
Lemma cleanedResponse_In c content :
  In c (cleanedResponse content) -> In c content.
Proof.
  unfold cleanedResponse. intros H.
  apply trim_In, RegExpFacts.replace_all_In in H.
  now apply RegExpFacts.replace_first_In, RegExpFacts.replace_first_In in H.
Qed.

(** C3.  With no image, or with no assertion text, [validateImage]
    returns a rejection at once: the precondition [Error], which is
    neither of the other kinds, and no call to the service. *)
Theorem validateImage_rejects_invalid_input this options :
  has_image options = false \/ has_assertion options = false ->
  exists error,
    validateImage this options = Return (Throw error)
    /\ InvalidInputError error = true
    /\ ValidationError error = false
    /\ GenerationError error = false
    /\ (forall invoke converse,
         calls invoke converse (validateImage this options) = 0).
Proof.
  unfold has_image, has_assertion, validateImage.
  rewrite <- negb_orb.
  destruct (truthy_bytes _ || truthy_string (input_base64Image options));
    cbn [negb].
  - intros [H|H]; [discriminate|]. rewrite H. cbn [negb].
    eexists. split; [reflexivity|]. now repeat split.
  - intros _. eexists. split; [reflexivity|]. now repeat split.
Qed.

(** C10.  An empty [base64Image] without [imageBytes] is a missing
    image, and an empty [assertionPrompt] is a missing one: the call is
    rejected as it is when the field is left out, with no call to the
    service. *)
Theorem validateImage_empty_string_is_absent this options :
  (input_imageBytes options = None ->
   input_base64Image options = Some [] ->
   validateImage this options
   = Return (Throw (Error (lit "Either imageBytes or base64Image must be provided"))))
  /\ (assertionPrompt options = Some [] ->
      validateImage this options
      = validateImage this (without_assertionPrompt options)
      /\ exists error,
           validateImage this options = Return (Throw error)
           /\ InvalidInputError error = true
           /\ (has_image options = true ->
               error = Error (lit "Assertion prompt is required"))).
Proof.
  split.
  - intros Hb Hs. unfold validateImage. now rewrite Hb, Hs.
  - intros Hp. unfold validateImage, without_assertionPrompt, has_image.
    cbn [input_imageBytes input_base64Image assertionPrompt].
    rewrite Hp. cbn [truthy_string negb]. rewrite <- negb_orb.
    destruct (truthy_bytes _ || truthy_string (input_base64Image options));
      cbn [negb]; (split; [reflexivity|]);
      eexists; (split; [reflexivity|]); split; try reflexivity;
      intros H; try discriminate; reflexivity.
Qed.

(** C6.  A reply whose text holds no brace is answered by a
    [ValidationError], an [Error] that the method throws itself.  The
    cleaning strips the fences and the line feeds: a text without
    backticks, put between [```json] and [```], is cleaned to what it
    is cleaned to alone, its units other than line feeds, trimmed.  In
    general the first [```json] marker, then the first [```] marker,
    each with the white space after it, then every line feed are
    removed, and the ends trimmed.  The match is the span of the
    cleaned text from its first opening brace to its last closing
    brace. *)
Theorem validateImage_no_braces :
  (forall this options invoke content,
     has_image options = true ->
     has_assertion options = true ->
     ~ In LBRACE content -> ~ In RBRACE content ->
     exists error,
       settle invoke (fun _ => Ok (text_reply content))
         (validateImage this options) = Throw error
       /\ ValidationError error = true
       /\ (error = Error (lit "No validation output received from model")
           \/ error = Error (lit "Model response did not include a valid JSON block")))
  /\ (forall j,
        ~ In BACKTICK j ->
        cleanedResponse (lit "```json" ++ [LF] ++ j ++ [LF] ++ lit "```")
        = trim (filter (fun c => negb (N.eqb LF c)) j)
        /\ cleanedResponse j = trim (filter (fun c => negb (N.eqb LF c)) j))
  /\ (forall content,
        cleanedResponse content
        = trim (filter (fun c => negb (N.eqb LF c))
                  (RegExp.replace_first RegExp.re_fence
                     (RegExp.replace_first RegExp.re_fence_json content))))
  /\ (forall content pre mid post,
        cleanedResponse content = pre ++ LBRACE :: mid ++ RBRACE :: post ->
        ~ In LBRACE pre -> ~ In RBRACE post ->
        jsonMatch content = Some (LBRACE :: mid ++ [RBRACE])).
Proof.
  assert (Hplain : forall j,
    ~ In BACKTICK j ->
    cleanedResponse j = trim (filter (fun c => negb (N.eqb LF c)) j)).
  { intros j Hj. unfold cleanedResponse.
    change RegExp.re_fence_json
      with (RegExp.chr BACKTICK :: List.tl RegExp.re_fence_json).
    change RegExp.re_fence with (RegExp.chr BACKTICK :: List.tl RegExp.re_fence).
    rewrite !(FenceFacts.replace_first_fence_absent _ j Hj).
    now rewrite RegExpFacts.replace_all_newline_filter. }
  split; [|split; [|split]].
  - intros this options invoke content Hi Ha Hl _.
    rewrite (validateImage_settle this options invoke _ Hi Ha).
    unfold validateImage_continue, text_reply, first_text.
    cbn [JS.bind response_output output_message reply_content block_text].
    destruct content as [|c content'] eqn:Ec.
    + cbn [truthy_string negb]. eexists. split; [reflexivity|]. split; [reflexivity|]. now left.
    + cbn [truthy_string negb default]. rewrite <- Ec in *.
      unfold jsonMatch, RegExp.match_.
      rewrite RegExpFacts.exec_braces_none.
      * eexists. split; [reflexivity|]. split; [reflexivity|]. now right.
      * intros H. apply Hl. now apply cleanedResponse_In.
  - intros j Hj. split; [|now apply Hplain].
    rewrite <- (Hplain j Hj).
    exact (FenceFacts.cleanedResponse_fenced j Hj).
  - intros content. unfold cleanedResponse.
    now rewrite RegExpFacts.replace_all_newline_filter.
  - intros content pre mid post E Hpre Hpost.
    unfold jsonMatch, RegExp.match_. rewrite E.
    now rewrite RegExpFacts.exec_braces.
Qed.

(** C8.  Two runs of [validateImage] on the same input, against any
    two services in any two states, settle to the same result when the
    services give the same answer: the result depends on the world
    through the answer only. *)
Theorem validateImage_deterministic
  (World1 World2 : Type) (svc1 : Service World1) (svc2 : Service World2)
  this options (w1 : World1) (w2 : World2) :
  (forall client input,
     snd (converse svc1 client input w1) = snd (converse svc2 client input w2)) ->
  snd (run svc1 (validateImage this options) w1)
  = snd (run svc2 (validateImage this options) w2).
Proof.
  intros Hsame. unfold validateImage.
  destruct (negb _ && negb _); [reflexivity|].
  destruct (negb _); [reflexivity|].
  cbn [run]. 
  match goal with
  | |- context [converse svc1 ?c ?i w1] =>
      specialize (Hsame c i);
      destruct (converse svc1 c i w1) as [w1' r1];
      destruct (converse svc2 c i w2) as [w2' r2]
  end.
  cbn [snd] in *. now subst r2.
Qed.

(** With both guards passed, a run makes one call to the service. *)
Remark validateImage_one_call this options invoke converse :
  has_image options = true -> has_assertion options = true ->
  calls invoke converse (validateImage this options) = 1.
Proof.
  intros Hi Ha.
  destruct (validateImage_awaits this options Hi Ha) as [input ->].
  reflexivity.
Qed.

(** A reply that holds no backtick gives the same result between the
    fences of a code block as without them. *)
Lemma validateImage_fenced_without_backticks this options invoke j :
  j <> [] -> ~ In BACKTICK j ->
  settle invoke (fun _ => Ok (text_reply (Examples.fenced j)))
    (validateImage this options)
  = settle invoke (fun _ => Ok (text_reply j)) (validateImage this options).
Proof.
  intros Hne Hj. unfold validateImage.
  destruct (negb _ && negb _); [reflexivity|].
  destruct (negb _); [reflexivity|].
  unfold settle. cbn [run mock converse snd].
  unfold validateImage_continue, text_reply, first_text.
  cbn [JS.bind response_output output_message reply_content block_text].
  unfold jsonMatch. cbn [default].
  rewrite (FenceFacts.cleanedResponse_fenced j Hj).
  destruct j as [|c j']; [now contradiction Hne|]. reflexivity.
Qed.

End ValidateImage.

(* ================================================================== *)
(** * [generateImage] *)

Section GenerateImage.
Import ImageAssertions Failure.
Context `{rt : Runtime}.

Lemma starts_with_app p s : starts_with p (p ++ s) = true.
Proof.
  induction p as [|x p IH]; [reflexivity|].
  cbn [app starts_with]. now rewrite N.eqb_refl, IH.
Qed.

Lemma generateImage_catch_kind cause :
  GenerationError (generateImage_catch cause) = true.
Proof.
  unfold GenerationError, generateImage_catch, Error.
  now rewrite jsstring_eqb_refl, starts_with_app.
Qed.

(** The method makes one call and settles to the [try] block under the
    [catch] block. *)
Lemma generateImage_settle this options sent converse :
  settle (fun _ => sent) converse (generateImage this options)
  = try_catch_rethrow
      (generateImage_try
         (default (generation_modelId options)
            (lit "amazon.titan-image-generator-v2:0"))
         sent)
      generateImage_catch.
Proof. reflexivity. Qed.

(** The [try] block on a response whose body parses to an object. *)
Lemma generateImage_try_object modelId body props :
  JSON_parse (TextDecoder_decode body) = Parsed (JObject props) ->
  generateImage_try modelId (Ok {| response_body := Some body |})
  = let images := lookup (lit "images") props in
    JS.bind
      (if negb (ToBoolean images) then Ok true
       else JS.bind (Get images (lit "length"))
              (fun len => Ok (strict_equals len (JNumber 0))))
      (fun no_images : bool =>
         if no_images
         then Throw (Error (lit "No images returned from model"))
         else
           JS.bind (Get images (lit "0")) (fun base64Image =>
             if negb (ToBoolean base64Image)
             then Throw (Error (lit "No image data found in response"))
             else
               JS.bind
                 match base64Image with
                 | JString s => Ok (Buffer_from_base64 s)
                 | other => Buffer_from_other other
                 end
                 (fun imageBytes =>
                    Ok {| imageBytes := imageBytes;
                          base64Image := base64Image;
                          modelId := modelId |}))).
Proof.
  intros Hp. unfold generateImage_try. cbn [JS.bind response_body].
  unfold parse. rewrite Hp. reflexivity.
Qed.

(** C4.  [generateImage] fails with the one [Error] of generation,
    whose message is the prefix and the cause: the message of what the
    client threw, of the missing body, of the [SyntaxError] of
    [JSON.parse], of the missing or empty image list, of the empty
    first image.  Every failure of the method is of that form. *)
Theorem generateImage_failures this options converse :
  let outcome sent :=
    settle (fun _ => sent) converse (generateImage this options) in
  let failed cause : Exc ImageGenerationResult :=
    Throw (Error (lit "Image generation failed: " ++ cause)) in
  let parsed_body body props :=
    JSON_parse (TextDecoder_decode body) = Parsed (JObject props) in
  (forall cause, outcome (Throw cause) = failed (message_of cause))
  /\ outcome (Ok {| response_body := None |})
     = failed (lit "No response body received from model")
  /\ (forall body message,
        JSON_parse (TextDecoder_decode body) = SyntaxError message ->
        outcome (Ok {| response_body := Some body |}) = failed message)
  /\ (forall body props,
        parsed_body body props ->
        ToBoolean (lookup (lit "images") props) = false ->
        outcome (Ok {| response_body := Some body |})
        = failed (lit "No images returned from model"))
  /\ (forall body props,
        parsed_body body props ->
        lookup (lit "images") props = JArray [] ->
        outcome (Ok {| response_body := Some body |})
        = failed (lit "No images returned from model"))
  /\ (forall body props first rest,
        parsed_body body props ->
        lookup (lit "images") props = JArray (first :: rest) ->
        ToBoolean first = false ->
        outcome (Ok {| response_body := Some body |})
        = failed (lit "No image data found in response"))
  /\ (forall sent error,
        outcome sent = Throw error ->
        GenerationError error = true
        /\ exists cause,
             error = Error (lit "Image generation failed: " ++ cause)).
Proof.
  intros outcome failed parsed_body. subst outcome failed parsed_body.
  cbv beta. repeat split.
  - intros body message Hp. rewrite generateImage_settle.
    unfold generateImage_try, parse. cbn [JS.bind response_body].
    now rewrite Hp.
  - intros body props Hp Hfalsy. rewrite generateImage_settle.
    rewrite (generateImage_try_object _ body props Hp). cbv zeta.
    now rewrite Hfalsy.
  - intros body props Hp Himg. rewrite generateImage_settle.
    rewrite (generateImage_try_object _ body props Hp). cbv zeta.
    now rewrite Himg.
  - intros body props first rest Hp Himg Hfirst.
    rewrite generateImage_settle.
    rewrite (generateImage_try_object _ body props Hp). cbv zeta.
    rewrite Himg. cbn [ToBoolean negb Get].
    rewrite jsstring_eqb_refl. cbn [JS.bind strict_equals].
    rewrite NumberFacts.number_of_length_zero. cbn [List.length Nat.eqb].
    replace (JSString.eqb (lit "0") (lit "length")) with false by reflexivity.
    replace (array_index (lit "0")) with (Some 0) by reflexivity.
    cbn [nth JS.bind]. now rewrite Hfirst.
  - rewrite generateImage_settle in H.
    destruct (generateImage_try _ sent) as [r|cause]; [discriminate|].
    cbn [try_catch_rethrow] in H. injection H as <-.
    apply generateImage_catch_kind.
  - rewrite generateImage_settle in H.
    destruct (generateImage_try _ sent) as [r|cause]; [discriminate|].
    cbn [try_catch_rethrow] in H. injection H as <-.
    now exists (message_of cause).
Qed.

End GenerateImage.

(* ================================================================== *)
(** * [toSatisfyImageAssertions] *)

Section Matcher.
Import ImageAssertions Matcher.
Context `{rt : Runtime} `{utils : MatcherUtils}.

Lemma pass_forallb received expected :
  pass (toSatisfyImageAssertions received expected)
  = forallb (entry_holds received) expected.
Proof.
  unfold toSatisfyImageAssertions.
  now destruct (forallb (entry_holds received) expected).
Qed.

Lemma strict_equals_true a :
  strict_equals a (JBool true) = true <-> a = JBool true.
Proof. destruct a as [| |[|]| | | |]; simpl; split; congruence. Qed.

(** Two different literal keys, or a key that should differ from
    itself. *)
Ltac other_key :=
  intros;
  match goal with
  | E : lit _ = lit _ |- _ => vm_compute in E; discriminate E
  | N : ?k <> ?k |- _ => now contradiction N
  end.

(** [===] against a primitive value is the exact equality of the
    specification. *)
Lemma strict_equals_exact a b :
  primitive b -> (strict_equals a b = true <-> exactly_equal a b).
Proof.
  destruct b as [| |y|y|t|elems|props]; cbn [primitive exactly_equal];
    intros Hb; try contradiction.
  - destruct a; cbn [strict_equals]; split; congruence.
  - destruct a; cbn [strict_equals]; split; congruence.
  - destruct a as [| |x| | | |]; cbn [strict_equals]; split;
      try congruence.
    + intros H. apply Bool.eqb_prop in H. now subst.
    + intros H. injection H as ->. apply Bool.eqb_reflx.
  - destruct a as [| | |x| | |]; cbn [strict_equals]; split;
      try discriminate; try (intros (x' & E & _); discriminate E).
    + intros H. now exists x.
    + intros (x' & E & H). now injection E as <-.
  - destruct a as [| | | |u| |]; cbn [strict_equals]; split;
      try congruence.
    + intros H. apply jsstring_eqb_eq in H. now subst.
    + intros H. injection H as ->. apply jsstring_eqb_refl.
Qed.

Lemma strict_equals_undefined_iff v :
  strict_equals JUndefined v = true <-> v = JUndefined.
Proof. destruct v; cbn [strict_equals]; split; congruence. Qed.

Lemma existsb_key key keys :
  existsb (JSString.eqb key) keys = false <-> ~ In key keys.
Proof.
  split.
  - intros H Hin. apply not_true_iff_false in H. apply H.
    apply existsb_exists. exists key. split; [assumption|].
    apply jsstring_eqb_refl.
  - intros H. apply not_true_iff_false. intros E.
    apply existsb_exists in E as (k & Hin & Ek).
    apply jsstring_eqb_eq in Ek. subst k. now apply H.
Qed.

(** The callback of [every] decides what the specification asks. *)
Lemma entry_holds_met received key value :
  primitive value ->
  (entry_holds received (key, value) = true
   <-> expectation_met received key value).
Proof.
  intros Hv. unfold entry_holds, expectation_met.
  destruct (JSString.eqb key (lit "assertionsMet")) eqn:E1.
  { apply jsstring_eqb_eq in E1. subst key.
    rewrite (strict_equals_exact _ _ Hv). split.
    - intros H. split; [trivial|]. split; [other_key|].
      split; [other_key|]. split; other_key.
    - intros (H & _). now apply H. }
  destruct (JSString.eqb key (lit "score")) eqn:E2.
  { apply jsstring_eqb_eq in E2. subst key. split.
    - intros H. split; [other_key|]. split; [trivial|].
      split; [other_key|]. split; other_key.
    - intros (_ & H & _). now apply H. }
  destruct (JSString.eqb key (lit "tone")) eqn:E3.
  { apply jsstring_eqb_eq in E3. subst key.
    rewrite (strict_equals_exact _ _ Hv). split.
    - intros H. split; [other_key|]. split; [other_key|].
      split; [trivial|]. split; other_key.
    - intros (_ & _ & H & _). now apply H. }
  unfold received_property. rewrite E1, E2, E3.
  destruct (JSString.eqb key (lit "explanation")) eqn:E4.
  { apply jsstring_eqb_eq in E4. subst key.
    rewrite (strict_equals_exact _ _ Hv). split.
    - intros H. split; [other_key|]. split; [other_key|].
      split; [other_key|]. split; [trivial|other_key].
    - intros (_ & _ & _ & H & _). now apply H. }
  assert (N1 : key <> lit "assertionsMet")
    by (intros ->; now rewrite jsstring_eqb_refl in E1).
  assert (N2 : key <> lit "score")
    by (intros ->; now rewrite jsstring_eqb_refl in E2).
  assert (N3 : key <> lit "tone")
    by (intros ->; now rewrite jsstring_eqb_refl in E3).
  assert (N4 : key <> lit "explanation")
    by (intros ->; now rewrite jsstring_eqb_refl in E4).
  destruct (existsb (JSString.eqb key) Object_prototype_keys) eqn:Ep.
  - split; [discriminate|]. intros (_ & _ & _ & _ & H).
    destruct (H N1 N2 N3 N4) as [_ Hno]. apply existsb_key in Hno.
    congruence.
  - rewrite strict_equals_undefined_iff. apply existsb_key in Ep. split.
    + intros H. repeat split; try contradiction; assumption.
    + intros (_ & _ & _ & _ & H). now apply (H N1 N2 N3 N4).
Qed.

(** C2.  For a verdict and an expectation whose values are primitive,
    the matcher passes exactly when every entry of the expectation is
    met: [assertionsMet] and [tone] by exact equality, [score] by [>=]
    with the expectation as the floor, any other field by exact
    equality with the verdict's field of that name; keys that the
    expectation lacks ask nothing.  So an expected tone or explanation
    passes exactly when the verdict holds the same text, and the
    expectation [{assertionsMet: true, score: s}] passes exactly when
    [assertionsMet] is [true] and the score is at least [s]. *)
Theorem toSatisfyImageAssertions_passes_iff :
  (forall received expected,
     (forall key value, In (key, value) expected -> primitive value) ->
     (pass (toSatisfyImageAssertions received expected) = true
      <-> forall key value,
            In (key, value) expected -> expectation_met received key value))
  /\ (forall received s,
        pass (toSatisfyImageAssertions received
                [ (lit "assertionsMet", JBool true); (lit "score", JNumber s) ])
        = true
        <-> assertionsMet received = JBool true
            /\ ge (score received) (JNumber s) = true)
  /\ (forall received s x,
        score received = JNumber x ->
        (pass (toSatisfyImageAssertions received
                 [ (lit "assertionsMet", JBool true); (lit "score", JNumber s) ])
         = true
         <-> assertionsMet received = JBool true
             /\ PrimFloat.leb s x = true))
  /\ (forall received (b : bool),
        pass (toSatisfyImageAssertions received
                [ (lit "assertionsMet", JBool b) ]) = true
        <-> assertionsMet received = JBool b)
  /\ (forall received (text : jsstring),
        pass (toSatisfyImageAssertions received
                [ (lit "tone", JString text) ]) = true
        <-> tone received = JString text)
  /\ (forall received (text : jsstring),
        pass (toSatisfyImageAssertions received
                [ (lit "explanation", JString text) ]) = true
        <-> explanation received = JString text)
  /\ (forall received key value,
        key <> lit "assertionsMet" -> key <> lit "score" ->
        key <> lit "tone" -> key <> lit "explanation" ->
        primitive value ->
        (pass (toSatisfyImageAssertions received [ (key, value) ]) = true
         <-> value = JUndefined /\ ~ In key Object_prototype_keys)).
Proof.
  assert (Hpair : forall received s,
    pass (toSatisfyImageAssertions received
            [ (lit "assertionsMet", JBool true); (lit "score", JNumber s) ])
    = true
    <-> assertionsMet received = JBool true
        /\ ge (score received) (JNumber s) = true).
  { intros received s. rewrite pass_forallb. cbn [forallb entry_holds].
    replace (JSString.eqb (lit "assertionsMet") (lit "assertionsMet"))
      with true by reflexivity.
    replace (JSString.eqb (lit "score") (lit "assertionsMet"))
      with false by reflexivity.
    replace (JSString.eqb (lit "score") (lit "score")) with true by reflexivity.
    rewrite andb_true_r, andb_true_iff.
    now rewrite strict_equals_true. }
  assert (Hone : forall received key value,
    primitive value ->
    (pass (toSatisfyImageAssertions received [ (key, value) ]) = true
     <-> expectation_met received key value)).
  { intros received key value Hv. rewrite pass_forallb. cbn [forallb].
    rewrite andb_true_r. now apply entry_holds_met. }
  split; [|split; [|split; [|split; [|split; [|split]]]]].
  - intros received expected Hprim.
    rewrite pass_forallb, forallb_forall. split.
    + intros H key value Hin.
      apply entry_holds_met; [now apply (Hprim key value)|]. now apply H.
    + intros H [key value] Hin.
      apply entry_holds_met; [now apply (Hprim key value)|]. now apply H.
  - exact Hpair.
  - intros received s x Hx. rewrite Hpair, Hx. now rewrite ge_numbers.
  - intros received b.
    rewrite (Hone received (lit "assertionsMet") (JBool b) I). split.
    + intros (H & _). exact (H eq_refl).
    + intros H. split; [intros _; exact H|].
      split; [other_key|]. split; [other_key|]. split; other_key.
  - intros received text.
    rewrite (Hone received (lit "tone") (JString text) I). split.
    + intros (_ & _ & H & _). exact (H eq_refl).
    + intros H. split; [other_key|]. split; [other_key|].
      split; [intros _; exact H|]. split; other_key.
  - intros received text.
    rewrite (Hone received (lit "explanation") (JString text) I). split.
    + intros (_ & _ & _ & H & _). exact (H eq_refl).
    + intros H. split; [other_key|]. split; [other_key|].
      split; [other_key|]. split; [intros _; exact H|other_key].
  - intros received key value N1 N2 N3 N4 Hv.
    rewrite (Hone received key value Hv). split.
    + intros (_ & _ & _ & _ & H). now apply H.
    + intros H. repeat split; try contradiction; now apply H.
Qed.

(** C9.  The empty expectation is satisfied by every verdict. *)
Theorem toSatisfyImageAssertions_empty received :
  pass (toSatisfyImageAssertions received []) = true.
Proof. reflexivity. Qed.

End Matcher.

(* ================================================================== *)
(** * The statements at worked inputs *)

Section Witnesses.
Import ImageAssertions Failure Matcher Examples.
Existing Instance TestRuntime.node.

(** The model says true with score 9 and the threshold is 10: the
    verdict says false. *)
Lemma validateImage_threshold_gate_witness :
  exists verdict,
    settle no_invoke (fun _ => Ok (text_reply cat_reply))
      (validateImage this (options (Some 10%float))) = Ok verdict
    /\ assertionsMet verdict = JBool (true && PrimFloat.leb 10 9)
    /\ (assertionsMet verdict = JBool true ->
        true = true /\ PrimFloat.leb 10 9 = true)
    /\ (PrimFloat.ltb 9 10 = true -> assertionsMet verdict = JBool false).
Proof.
  apply (validateImage_threshold_gate (rt := TestRuntime.node)
           this (options (Some 10%float)) no_invoke cat_reply cat_reply
           cat_props 9%float true);
    vm_compute; reflexivity.
Defined.

(** Score 42 and tone [sepia] come back as they were parsed. *)
Lemma validateImage_fields_pass_through_witness :
  exists verdict,
    settle no_invoke (fun _ => Ok (text_reply sepia_reply))
      (validateImage this (options None)) = Ok verdict
    /\ score verdict = JNumber 42
    /\ tone verdict = JString (lit "sepia")
    /\ explanation verdict = JString (lit "Brown.").
Proof.
  apply (validateImage_fields_pass_through (rt := TestRuntime.node)
           this (options None) no_invoke sepia_reply sepia_reply sepia_props);
    vm_compute; reflexivity.
Defined.

Lemma validateImage_rejects_invalid_input_witness :
  exists error,
    validateImage this options_without_image = Return (Throw error)
    /\ InvalidInputError error = true
    /\ ValidationError error = false
    /\ GenerationError error = false
    /\ (forall invoke converse,
         calls invoke converse (validateImage this options_without_image) = 0).
Proof.
  apply (validateImage_rejects_invalid_input (rt := TestRuntime.node)
           this options_without_image).
  left. reflexivity.
Defined.

Lemma validateImage_empty_string_is_absent_witness :
  validateImage this options_with_empty_strings
  = Return (Throw (Error (lit "Either imageBytes or base64Image must be provided")))
  /\ validateImage this options_with_empty_strings
     = validateImage this (without_assertionPrompt options_with_empty_strings).
Proof.
  destruct (validateImage_empty_string_is_absent (rt := TestRuntime.node)
              this options_with_empty_strings) as [Himage Hprompt].
  split.
  - apply Himage; reflexivity.
  - apply Hprompt. reflexivity.
Defined.

Lemma validateImage_no_braces_witness :
  (exists error,
     settle no_invoke (fun _ => Ok (text_reply (lit "I cannot tell.")))
       (validateImage this (options None)) = Throw error
     /\ ValidationError error = true
     /\ (error = Error (lit "No validation output received from model")
         \/ error = Error (lit "Model response did not include a valid JSON block")))
  /\ (exists error,
        settle no_invoke
          (fun _ => Ok (text_reply (fenced (lit "I cannot tell."))))
          (validateImage this (options None)) = Throw error
        /\ ValidationError error = true
        /\ (error = Error (lit "No validation output received from model")
            \/ error = Error (lit "Model response did not include a valid JSON block")))
  /\ cleanedResponse (fenced (lit "{" ++ [LF] ++ lit "  a: 1" ++ [LF] ++ lit "}"))
     = lit "{  a: 1}"
  /\ jsonMatch (fenced (lit "{a}")) = Some (lit "{a}")
  /\ jsonMatch (lit "Sure: {a}{b} done")
     = Some (LBRACE :: lit "a}{b" ++ [RBRACE]).
Proof.
  destruct (validateImage_no_braces (rt := TestRuntime.node))
    as (Hnone & Hfence & _ & Hspan).
  split; [|split; [|split; [|split]]].
  - apply Hnone; try reflexivity.
    + vm_compute. intuition discriminate.
    + vm_compute. intuition discriminate.
  - apply Hnone; try reflexivity.
    + vm_compute. intuition discriminate.
    + vm_compute. intuition discriminate.
  - refine (eq_trans
              (proj1 (Hfence (lit "{" ++ [LF] ++ lit "  a: 1" ++ [LF] ++ lit "}") _))
              _).
    + vm_compute. intuition discriminate.
    + vm_compute. reflexivity.
  - apply (Hspan (fenced (lit "{a}")) [] (lit "a") []).
    + refine (eq_trans (proj1 (Hfence (lit "{a}") _)) _).
      * vm_compute. intuition discriminate.
      * vm_compute. reflexivity.
    + intros [].
    + intros [].
  - apply (Hspan (lit "Sure: {a}{b} done") (lit "Sure: ") (lit "a}{b")
             (lit " done")).
    + reflexivity.
    + vm_compute. intuition discriminate.
    + vm_compute. intuition discriminate.
Defined.

(** A second run, after the service has counted the first call. *)
Lemma validateImage_deterministic_witness :
  snd (run cat_service (validateImage this (options None)) 0)
  = snd (run cat_service (validateImage this (options None)) 1).
Proof.
  apply (validateImage_deterministic (rt := TestRuntime.node)
           nat nat cat_service cat_service this (options None) 0 1).
  intros client input. reflexivity.
Defined.

Lemma generateImage_failures_witness :
  let outcome sent :=
    settle (fun _ => sent) no_converse (generateImage this generation_options) in
  let failed cause : Exc ImageGenerationResult :=
    Throw (Error (lit "Image generation failed: " ++ cause)) in
  outcome (Throw (ErrorObject (lit "AccessDeniedException") (lit "denied")))
  = failed (lit "denied")
  /\ outcome (Ok {| response_body := Some (bytes_of (lit "<html>")) |})
     = failed (lit "Unexpected token or end of JSON input")
  /\ outcome (Ok {| response_body := Some (bytes_of (lit "{}")) |})
     = failed (lit "No images returned from model")
  /\ outcome (Ok {| response_body := Some (images_body (lit "[]")) |})
     = failed (lit "No images returned from model")
  /\ outcome (Ok {| response_body := Some (images_body (lit "[null]")) |})
     = failed (lit "No image data found in response").
Proof.
  destruct (generateImage_failures (rt := TestRuntime.node)
              this generation_options no_converse)
    as (Hsend & _ & Hsyntax & Hmissing & Hempty & Hfirst & _).
  cbv zeta. split; [apply Hsend|].
  split; [apply Hsyntax; vm_compute; reflexivity|].
  split; [apply (Hmissing _ []); vm_compute; reflexivity|].
  split.
  - apply (Hempty _ [ (lit "images", JArray []) ]); vm_compute; reflexivity.
  - apply (Hfirst _ [ (lit "images", JArray [JNull]) ] JNull []);
      vm_compute; reflexivity.
Defined.

(** An implication whose premise equates two different literal keys,
    or tells a key from itself. *)
Ltac not_this_key :=
  intros;
  match goal with
  | E : lit _ = lit _ |- _ => vm_compute in E; discriminate E
  | N : ?k <> ?k |- _ => now contradiction N
  end.

(** The expectation of the tests passes; another tone, another
    explanation or a key that names no field does not. *)
Lemma toSatisfyImageAssertions_passes_iff_witness :
  pass (toSatisfyImageAssertions verdict
          [ (lit "assertionsMet", JBool true); (lit "score", JNumber 8);
            (lit "tone", JString (lit "photo-realistic"));
            (lit "explanation", JString (lit "An orange cat on a windowsill.")) ])
  = true
  /\ pass (toSatisfyImageAssertions verdict
             [ (lit "assertionsMet", JBool true); (lit "score", JNumber 8) ])
     = true
  /\ pass (toSatisfyImageAssertions verdict [ (lit "tone", JString (lit "dreamy")) ])
     <> true
  /\ pass (toSatisfyImageAssertions verdict
             [ (lit "explanation", JString (lit "A dog.")) ])
     <> true
  /\ pass (toSatisfyImageAssertions verdict [ (lit "mood", JNumber 1) ])
     <> true.
Proof.
  destruct (toSatisfyImageAssertions_passes_iff (rt := TestRuntime.node)
              (utils := Examples.utils))
    as (Hall & _ & Hpair & _ & Htone & Hexplanation & Hother).
  split; [|split; [|split; [|split]]].
  - apply Hall.
    + intros key value [E|[E|[E|[E|[]]]]]; injection E as _ <-; exact I.
    + intros key value [E|[E|[E|[E|[]]]]]; injection E as <- <-.
      * split; [reflexivity|]. repeat split; not_this_key.
      * split; [not_this_key|]. split; [reflexivity|]. repeat split; not_this_key.
      * split; [not_this_key|]. split; [not_this_key|]. split; [reflexivity|].
        split; not_this_key.
      * split; [not_this_key|]. split; [not_this_key|]. split; [not_this_key|].
        split; [reflexivity|not_this_key].
  - apply (Hpair verdict 8%float 9%float); [reflexivity|].
    split; reflexivity.
  - intros Hpass. apply Htone in Hpass. vm_compute in Hpass.
    discriminate Hpass.
  - intros Hpass. apply Hexplanation in Hpass. vm_compute in Hpass.
    discriminate Hpass.
  - intros Hpass.
    apply (Hother verdict (lit "mood") (JNumber 1)) in Hpass.
    + destruct Hpass as [Hpass _]. discriminate Hpass.
    + vm_compute. discriminate.
    + vm_compute. discriminate.
    + vm_compute. discriminate.
    + vm_compute. discriminate.
    + exact I.
Defined.

(** The model says true with score 9 and the threshold is the default
    7: the verdict says true. *)
Example validateImage_default_threshold :
  settle no_invoke (fun _ => Ok (text_reply cat_reply))
    (validateImage this (options None))
  = Ok verdict.
Proof. vm_compute. reflexivity. Qed.

(** The same reply between fences. *)
Example validateImage_fenced_reply :
  settle no_invoke (fun _ => Ok (text_reply (fenced cat_reply)))
    (validateImage this (options None))
  = Ok verdict.
Proof. vm_compute. reflexivity. Qed.

(** C5.  A reply whose JSON quotes the marker [```json] in its
    explanation: between fences the start marker removed is the fence
    and the explanation loses three backticks; without fences the start
    marker removed is the quoted one.  The two verdicts differ. *)
Theorem validateImage_fenced_marker_reply :
  settle no_invoke (fun _ => Ok (text_reply marker_reply))
    (validateImage this (options None))
  = Ok {| assertionsMet := JBool true;
          score := JNumber 9;
          tone := JString (lit "dreamy");
          explanation := JString (lit "xy") |}
  /\ settle no_invoke (fun _ => Ok (text_reply (fenced marker_reply)))
       (validateImage this (options None))
     = Ok {| assertionsMet := JBool true;
             score := JNumber 9;
             tone := JString (lit "dreamy");
             explanation := JString (lit "xjson y") |}.
Proof. split; vm_compute; reflexivity. Qed.

End Witnesses.

(* ================================================================== *)
(** * More about [validateImage] *)

Section ValidateImageMore.
Import ImageAssertions Failure.
Context `{rt : Runtime}.

(** With both guards passed, what the method is. *)
Lemma validateImage_unfold this options :
  has_image options = true -> has_assertion options = true ->
  validateImage this options
  = AwaitConverse (bedrock this)
      {| converse_modelId :=
           default (input_modelId options) (lit "us.amazon.nova-premier-v1:0");
         converse_messages :=
           [ {| message_role := USER;
                message_content :=
                  [ TextBlock
                      (validationPrompt (default (assertionPrompt options) []));
                    ImageBlock PNG
                      match input_imageBytes options with
                      | Some bytes => bytes
                      | None =>
                          Buffer_from_base64
                            (default (input_base64Image options) [])
                      end ] |} ];
         converse_inferenceConfig :=
           {| config_temperature := default (temperature options) 0.3%float;
              config_topP := default (topP options) 0.7%float;
              config_maxTokens :=
                default (maxTokensToSample options) 500%float |} |}
      (fun sent => Return (validateImage_continue (threshold_of options) sent)).
Proof.
  unfold has_image, has_assertion, validateImage. intros Hi Ha.
  rewrite <- negb_orb, Hi, Ha. reflexivity.
Qed.

(** X1.  Raw bytes win over the base64 text: when [imageBytes] is
    given, be it empty, the first guard passes whatever [base64Image]
    is, and the one image part of the one message carries those bytes;
    the base64 text is decoded only when [imageBytes] is missing. *)
Theorem validateImage_image_sent this options :
  has_assertion options = true ->
  (forall bytes,
     input_imageBytes options = Some bytes ->
     exists input,
       Sent.conversation (validateImage this options)
       = Some (bedrock this, input)
       /\ Sent.image_bytes input = [bytes])
  /\ (forall text,
        input_imageBytes options = None ->
        input_base64Image options = Some text ->
        text <> [] ->
        exists input,
          Sent.conversation (validateImage this options)
          = Some (bedrock this, input)
          /\ Sent.image_bytes input = [Buffer_from_base64 text]).
Proof.
  intros Ha. split.
  - intros bytes Hb.
    assert (Hi : has_image options = true)
      by (unfold has_image; now rewrite Hb).
    rewrite (validateImage_unfold this options Hi Ha), Hb.
    eexists. split; reflexivity.
  - intros text Hb Ht Hne.
    assert (Hi : has_image options = true).
    { unfold has_image. rewrite Hb, Ht. now destruct text. }
    rewrite (validateImage_unfold this options Hi Ha), Hb, Ht.
    eexists. split; reflexivity.
Qed.

(** X2.  A rejection of [client.send] leaves [validateImage] as it
    came: there is no [catch], so the caller gets the client's own
    error, not an [Error] of the method. *)
Theorem validateImage_rejection_as_is this options invoke cause :
  has_image options = true -> has_assertion options = true ->
  settle invoke (fun _ => Throw cause) (validateImage this options)
  = Throw cause.
Proof.
  intros Hi Ha. now rewrite (validateImage_settle this options invoke _ Hi Ha).
Qed.

(** X3.  A reply without a content list makes the method throw the
    engine's [TypeError] (indexing [undefined]); a reply whose content
    list is empty, or whose first block has no text or an empty text,
    makes it throw [No validation output received from model], even
    when a later block holds text. *)
Theorem validateImage_reply_without_text this options invoke :
  has_image options = true -> has_assertion options = true ->
  let outcome response :=
    settle invoke (fun _ => Ok response) (validateImage this options) in
  let crash : Exc ImageAssertionResponse :=
    Throw (ErrorObject (lit "TypeError")
             (TypeError_message JUndefined (lit "0"))) in
  let no_output : Exc ImageAssertionResponse :=
    Throw (Error (lit "No validation output received from model")) in
  outcome {| response_output := None |} = crash
  /\ outcome {| response_output := Some {| output_message := None |} |} = crash
  /\ outcome {| response_output :=
                  Some {| output_message :=
                            Some {| reply_content := None |} |} |} = crash
  /\ outcome (MoreExamples.blocks_reply []) = no_output
  /\ (forall block rest,
        block_text block = None ->
        outcome (MoreExamples.blocks_reply (block :: rest)) = no_output)
  /\ (forall rest,
        outcome (MoreExamples.blocks_reply (TextBlock [] :: rest)) = no_output).
Proof.
  intros Hi Ha outcome crash no_output. subst outcome crash no_output.
  cbv beta.
  repeat split; intros;
    rewrite (validateImage_settle this options invoke _ Hi Ha);
    unfold validateImage_continue, first_text, MoreExamples.blocks_reply;
    cbn [JS.bind response_output output_message reply_content];
    try reflexivity.
  now rewrite H.
Qed.

(** X4.  When the matched text is not JSON, the [SyntaxError] of
    [JSON.parse] leaves the method as it is, with the engine's
    message. *)
Theorem validateImage_malformed_json this options invoke content matched message :
  has_image options = true -> has_assertion options = true ->
  jsonMatch content = Some matched ->
  JSON_parse (trim matched) = SyntaxError message ->
  settle invoke (fun _ => Ok (text_reply content)) (validateImage this options)
  = Throw (ErrorObject (lit "SyntaxError") message).
Proof.
  intros Hi Ha Hm Hp.
  rewrite (validateImage_settle this options invoke _ Hi Ha).
  rewrite (validateImage_continue_text _ content matched Hm).
  unfold parse. now rewrite Hp.
Qed.

Lemma ge_undefined v : ge JUndefined v = false.
Proof.
  unfold ge, IsLessThan. cbn [ToPrimitive].
  destruct (ToPrimitive v); reflexivity.
Qed.

Lemma ge_nan v : ge v (JNumber PrimFloat.nan) = false.
Proof.
  unfold ge, IsLessThan. cbn [ToPrimitive].
  destruct (ToPrimitive v); cbn [ToNumber];
    now rewrite ?orb_true_r.
Qed.

(** The settled result on a reply that parses to an object. *)
Lemma validateImage_on_object this options invoke content matched props :
  has_image options = true -> has_assertion options = true ->
  jsonMatch content = Some matched ->
  JSON_parse (trim matched) = Parsed (JObject props) ->
  settle invoke (fun _ => Ok (text_reply content)) (validateImage this options)
  = Ok {| assertionsMet :=
            if ge (lookup (lit "score") props) (JNumber (threshold_of options))
            then lookup (lit "assertionsMet") props
            else JBool false;
          score := lookup (lit "score") props;
          tone := lookup (lit "tone") props;
          explanation := lookup (lit "explanation") props |}.
Proof.
  intros Hi Ha Hm Hp.
  rewrite (validateImage_settle this options invoke _ Hi Ha).
  rewrite (validateImage_continue_text _ content matched Hm).
  unfold parse. rewrite Hp. cbn [JS.bind]. apply verdict_of_object.
Qed.

(** X5.  When the model's object has no [score], the verdict says
    [assertionsMet] false whatever the model said and whatever the
    threshold, and its [score] is [undefined]. *)
Theorem validateImage_missing_score this options invoke content matched props :
  has_image options = true -> has_assertion options = true ->
  jsonMatch content = Some matched ->
  JSON_parse (trim matched) = Parsed (JObject props) ->
  lookup (lit "score") props = JUndefined ->
  exists verdict,
    settle invoke (fun _ => Ok (text_reply content))
      (validateImage this options) = Ok verdict
    /\ assertionsMet verdict = JBool false
    /\ score verdict = JUndefined.
Proof.
  intros Hi Ha Hm Hp Hs.
  rewrite (validateImage_on_object this options invoke content matched props
             Hi Ha Hm Hp).
  rewrite Hs, ge_undefined. eexists. now repeat split.
Qed.

(** X6.  When the score reaches the threshold, the verdict's
    [assertionsMet] is the model's own property, whatever its type: a
    string stays a string, and a missing property gives [undefined]. *)
Theorem validateImage_raw_assertionsMet
  this options invoke content matched props (s : float) :
  has_image options = true -> has_assertion options = true ->
  jsonMatch content = Some matched ->
  JSON_parse (trim matched) = Parsed (JObject props) ->
  lookup (lit "score") props = JNumber s ->
  PrimFloat.leb (threshold_of options) s = true ->
  exists verdict,
    settle invoke (fun _ => Ok (text_reply content))
      (validateImage this options) = Ok verdict
    /\ assertionsMet verdict = lookup (lit "assertionsMet") props.
Proof.
  intros Hi Ha Hm Hp Hs Hle.
  rewrite (validateImage_on_object this options invoke content matched props
             Hi Ha Hm Hp).
  rewrite Hs, ge_numbers, Hle. eexists. now split.
Qed.

(** X7.  With NaN for the threshold no reply meets the assertions. *)
Theorem validateImage_nan_threshold this options invoke content matched props :
  has_image options = true -> has_assertion options = true ->
  confidenceThreshold options = Some PrimFloat.nan ->
  jsonMatch content = Some matched ->
  JSON_parse (trim matched) = Parsed (JObject props) ->
  exists verdict,
    settle invoke (fun _ => Ok (text_reply content))
      (validateImage this options) = Ok verdict
    /\ assertionsMet verdict = JBool false.
Proof.
  intros Hi Ha Ht Hm Hp.
  rewrite (validateImage_on_object this options invoke content matched props
             Hi Ha Hm Hp).
  unfold threshold_of. rewrite Ht. cbn [default]. rewrite ge_nan.
  eexists. now split.
Qed.

End ValidateImageMore.

(* ================================================================== *)
(** * More about the cleaning and the brace match *)

Module BraceFacts.
Import RegExp ImageAssertions.

(** A text splits at its first occurrence of a unit, if it has one. *)
Lemma split_first (c : N) (s : jsstring) :
  ~ In c s \/ exists pre rest, s = pre ++ c :: rest /\ ~ In c pre.
Proof.
  induction s as [|x s [IH|(pre & rest & -> & Hpre)]].
  - left. intros [].
  - destruct (N.eq_dec x c) as [->|Hx].
    + right. exists [], s. split; [reflexivity|intros []].
    + left. intros [H|H]; [now apply Hx|now apply IH].
  - right. destruct (N.eq_dec x c) as [->|Hx].
    + exists [], (pre ++ c :: rest). split; [reflexivity|intros []].
    + exists (x :: pre), rest. split; [reflexivity|].
      intros [H|H]; [now apply Hx|now apply Hpre].
Qed.

(** A text splits at its last occurrence of a unit, if it has one. *)
Lemma split_last (c : N) (s : jsstring) :
  ~ In c s \/ exists mid post, s = mid ++ c :: post /\ ~ In c post.
Proof.
  induction s as [|x s [IH|(mid & post & -> & Hpost)]].
  - left. intros [].
  - destruct (N.eq_dec x c) as [->|Hx].
    + right. exists [], s. split; [reflexivity|assumption].
    + left. intros [H|H]; [now apply Hx|now apply IH].
  - right. exists (x :: mid), post. split; [reflexivity|assumption].
Qed.

(** Without a closing brace there is no match. *)
Lemma exec_braces_no_close s : ~ In RBRACE s -> exec re_braces s = None.
Proof.
  induction s as [|c s IH]; intros H; [reflexivity|].
  rewrite RegExpFacts.exec_cons, RegExpFacts.exec_at_braces.
  rewrite RegExpFacts.star_to_last_brace_none
    by (intros H'; apply H; now right).
  rewrite IH by (intros H'; apply H; now right).
  now destruct (N.eqb LBRACE c).
Qed.

Lemma exec_braces_open_no_close pre rest :
  ~ In LBRACE pre -> ~ In RBRACE rest ->
  exec re_braces (pre ++ LBRACE :: rest) = None.
Proof.
  intros Hpre Hrest. unfold re_braces.
  rewrite (FenceFacts.exec_literal_skip LBRACE _ pre _ Hpre).
  change (chr LBRACE :: [Star any; chr RBRACE]) with re_braces.
  rewrite RegExpFacts.exec_cons, RegExpFacts.exec_at_braces, N.eqb_refl.
  rewrite RegExpFacts.star_to_last_brace_none by assumption.
  now rewrite exec_braces_no_close.
Qed.

(** What the match is, for every text. *)
Lemma exec_braces_cases s :
  (exec re_braces s = None
   /\ forall pre rest, s = pre ++ LBRACE :: rest -> ~ In RBRACE rest)
  \/ exists pre mid post,
       s = pre ++ LBRACE :: mid ++ RBRACE :: post
       /\ ~ In LBRACE pre /\ ~ In RBRACE post
       /\ exec re_braces s = Some (pre, LBRACE :: mid ++ [RBRACE], post).
Proof.
  destruct (split_first LBRACE s) as [Hno|(pre & rest & -> & Hpre)].
  - left. split; [now apply RegExpFacts.exec_braces_none|].
    intros pre rest ->. exfalso. apply Hno, in_or_app. right. now left.
  - destruct (split_last RBRACE rest) as [Hno|(mid & post & -> & Hpost)].
    + left. split; [now apply exec_braces_open_no_close|].
      intros pre' rest' E Hin.
      (* [rest'] is a part of [rest] *)
      assert (Hsub : forall x, In x rest' -> In x rest).
      { clear Hno Hin. revert pre' E.
        induction pre as [|x pre IH]; intros [|y pre'] E z Hz.
        - injection E as E. now subst rest'.
        - injection E as Ey E. subst y rest. apply in_or_app. right. now right.
        - injection E as Ex E. exfalso. apply Hpre. now left.
        - injection E as Ex E.
          apply (IH (fun H => Hpre (or_intror H)) pre' E z Hz). }
      now apply Hno, Hsub.
    + right. exists pre, mid, post. repeat split; try assumption.
      now apply RegExpFacts.exec_braces.
Qed.

Lemma trim_braced mid : trim (LBRACE :: mid ++ [RBRACE]) = LBRACE :: mid ++ [RBRACE].
Proof.
  unfold trim, trimEnd. cbn [trimStart].
  replace (is_space LBRACE) with false by reflexivity.
  change (LBRACE :: mid ++ [RBRACE]) with ((LBRACE :: mid) ++ [RBRACE]).
  rewrite rev_app_distr. cbn [rev app trimStart].
  replace (is_space RBRACE) with false by reflexivity.
  change (RBRACE :: rev mid ++ [LBRACE]) with ([RBRACE] ++ rev (LBRACE :: mid)).
  rewrite rev_app_distr, rev_involutive. reflexivity.
Qed.

(** The match is found exactly in the texts that, once cleaned, hold
    a closing brace after an opening one, and it is then the span from
    the first opening brace to the last closing brace. *)
Lemma jsonMatch_spec content :
  (forall matched,
     jsonMatch content = Some matched
     <-> exists pre mid post,
           cleanedResponse content = pre ++ LBRACE :: mid ++ RBRACE :: post
           /\ ~ In LBRACE pre /\ ~ In RBRACE post
           /\ matched = LBRACE :: mid ++ [RBRACE])
  /\ (jsonMatch content = None
      <-> forall pre rest,
            cleanedResponse content = pre ++ LBRACE :: rest ->
            ~ In RBRACE rest).
Proof.
  unfold jsonMatch, match_.
  destruct (exec_braces_cases (cleanedResponse content))
    as [[Hnone Hall]|(pre & mid & post & E & Hpre & Hpost & Hsome)].
  - rewrite Hnone. split.
    + intros matched. split; [discriminate|].
      intros (pre & mid & post & E & _ & _ & _). exfalso.
      apply (Hall pre (mid ++ RBRACE :: post) E), in_or_app.
      right. now left.
    + split; [intros _; exact Hall|reflexivity].
  - rewrite Hsome. split.
    + intros matched. split.
      * intros H. injection H as <-. now exists pre, mid, post.
      * intros (pre' & mid' & post' & E' & Hpre' & Hpost' & ->).
        rewrite E' in Hsome.
        rewrite (RegExpFacts.exec_braces pre' mid' post' Hpre' Hpost') in Hsome.
        injection Hsome as _ <- _. reflexivity.
    + split; [discriminate|]. intros Hall. exfalso.
      apply (Hall pre (mid ++ RBRACE :: post) E), in_or_app.
      right. now left.
Qed.

(** X9.  The match starts with an opening brace and ends with a closing
    one, so the [trim] applied to it before [JSON.parse] changes
    nothing; and it holds no line feed. *)
Theorem jsonMatch_trimmed content matched :
  jsonMatch content = Some matched ->
  trim matched = matched
  /\ (exists mid, matched = LBRACE :: mid ++ [RBRACE])
  /\ ~ In LF matched.
Proof.
  unfold jsonMatch, match_. intros H.
  destruct (exec_braces_cases (cleanedResponse content))
    as [[Hnone _]|(pre & mid & post & E & _ & _ & Hsome)].
  - rewrite Hnone in H. discriminate.
  - rewrite Hsome in H. injection H as <-.
    split; [apply trim_braced|]. split; [now exists mid|].
    intros Hin.
    assert (Hc : In LF (cleanedResponse content)).
    { rewrite E. apply in_or_app. right.
      change (LBRACE :: mid ++ RBRACE :: post)
        with ((LBRACE :: mid) ++ [RBRACE] ++ post).
      rewrite app_assoc. apply in_or_app. left. exact Hin. }
    unfold cleanedResponse in Hc. apply trim_In in Hc.
    now apply RegExpFacts.replace_all_newline in Hc.
Qed.

(** X10.  Cleaning only removes: every code unit of the cleaned text
    is one of the reply, the cleaned text is no longer than the reply,
    it holds no line feed, and it neither starts nor ends with white
    space. *)
Theorem cleanedResponse_only_removes content :
  (forall c, In c (cleanedResponse content) -> In c content)
  /\ ~ In LF (cleanedResponse content)
  /\ (forall c rest, cleanedResponse content = c :: rest -> is_space c = false)
  /\ (forall c front, cleanedResponse content = front ++ [c] -> is_space c = false).
Proof.
  split; [intros c; apply cleanedResponse_In|]. split.
  - unfold cleanedResponse. intros H. apply trim_In in H.
    now apply RegExpFacts.replace_all_newline in H.
  - assert (Hstart : forall s c rest, trimStart s = c :: rest -> is_space c = false).
    { induction s as [|x s IH]; cbn [trimStart]; intros c rest H; [discriminate|].
      destruct (is_space x) eqn:Ex; [now apply (IH c rest)|].
      now injection H as <- _. }
    unfold cleanedResponse, trim, trimEnd. split.
    + intros c rest H.
      set (t := trimStart (replace_all re_newline
                  (replace_first re_fence
                     (replace_first re_fence_json content)))) in *.
      (* the first unit of [rev (trimStart (rev t))] is a unit where
         [trimStart t] starts, unless the white space reached it *)
      destruct (FenceFacts.trimStart_split (rev t)) as (w & Hw & E).
      assert (Et : t = rev (trimStart (rev t)) ++ rev w).
      { rewrite <- rev_app_distr, <- E. now rewrite rev_involutive. }
      rewrite H in Et. cbn [app] in Et.
      subst t. eapply Hstart. exact Et.
    + intros c front H.
      apply (f_equal (@rev N)) in H.
      rewrite rev_involutive, rev_app_distr in H. cbn [rev app] in H.
      eapply Hstart. exact H.
Qed.

End BraceFacts.

Section BraceMatch.
Import ImageAssertions.
Context `{rt : Runtime}.

(** X8.  The match is found exactly in the texts that, once cleaned,
    hold a closing brace after an opening one, and it is then the span
    from the first opening brace to the last closing brace.  In all
    other texts that are not empty, a closing brace before the only
    opening one included, there is no match and the method throws
    [Model response did not include a valid JSON block]; with a match
    it goes on to [JSON.parse] on the match. *)
Theorem validateImage_brace_match content :
  (forall matched,
     jsonMatch content = Some matched
     <-> exists pre mid post,
           cleanedResponse content = pre ++ LBRACE :: mid ++ RBRACE :: post
           /\ ~ In LBRACE pre /\ ~ In RBRACE post
           /\ matched = LBRACE :: mid ++ [RBRACE])
  /\ (jsonMatch content = None
      <-> forall pre rest,
            cleanedResponse content = pre ++ LBRACE :: rest ->
            ~ In RBRACE rest)
  /\ (forall this options invoke,
        has_image options = true -> has_assertion options = true ->
        content <> [] ->
        (forall pre rest,
           cleanedResponse content = pre ++ LBRACE :: rest ->
           ~ In RBRACE rest) ->
        settle invoke (fun _ => Ok (text_reply content))
          (validateImage this options)
        = Throw (Error (lit "Model response did not include a valid JSON block")))
  /\ (forall this options invoke pre mid post,
        has_image options = true -> has_assertion options = true ->
        cleanedResponse content = pre ++ LBRACE :: mid ++ RBRACE :: post ->
        ~ In LBRACE pre -> ~ In RBRACE post ->
        settle invoke (fun _ => Ok (text_reply content))
          (validateImage this options)
        = JS.bind (parse (LBRACE :: mid ++ [RBRACE]))
            (verdict_of (threshold_of options))).
Proof.
  destruct (BraceFacts.jsonMatch_spec content) as [Hsome Hnone].
  split; [exact Hsome|]. split; [exact Hnone|]. split.
  - intros this options invoke Hi Ha Hne Hall.
    rewrite (validateImage_settle this options invoke _ Hi Ha).
    unfold validateImage_continue, text_reply, first_text.
    cbn [JS.bind response_output output_message reply_content block_text].
    destruct content as [|c content'] eqn:Ec; [now contradiction Hne|].
    cbn [truthy_string negb default]. rewrite <- Ec in *.
    now rewrite (proj2 Hnone Hall).
  - intros this options invoke pre mid post Hi Ha E Hpre Hpost.
    assert (Hm : jsonMatch content = Some (LBRACE :: mid ++ [RBRACE])).
    { apply Hsome. now exists pre, mid, post. }
    rewrite (validateImage_settle this options invoke _ Hi Ha).
    rewrite (validateImage_continue_text _ content _ Hm).
    now rewrite BraceFacts.trim_braced.
Qed.

End BraceMatch.

(* ================================================================== *)
(** * More about numbers *)

Module OrderFacts.

(** The comparison of the specification is a preorder on (sign,
    exponent, mantissa). *)
Lemma SFleb_trans x y z :
  SFleb x y = true -> SFleb y z = true -> SFleb x z = true.
Proof.
  unfold SFleb.
  destruct x as [sx|sx| |sx mx ex], y as [sy|sy| |sy my ey],
           z as [sz|sz| |sz mz ez]; cbn [SFcompare];
    repeat match goal with s : bool |- _ => destruct s end;
    try discriminate; try reflexivity.
  all: change (Pos.compare_cont Eq) with Pos.compare.
  all: destruct (Z.compare_spec ex ey), (Z.compare_spec ey ez),
                (Z.compare_spec ex ez);
    try discriminate; try reflexivity; try lia; subst;
    cbn [CompOpp];
    destruct (Pos.compare_spec mx my), (Pos.compare_spec my mz),
             (Pos.compare_spec mx mz);
    cbn [CompOpp]; try discriminate; try reflexivity; try lia.
Qed.

(** [<=] on binary64 is transitive. *)
Lemma leb_trans a b c :
  PrimFloat.leb a b = true -> PrimFloat.leb b c = true ->
  PrimFloat.leb a c = true.
Proof. rewrite !FloatAxioms.leb_spec. apply SFleb_trans. Qed.

End OrderFacts.

(* ================================================================== *)
(** * More about the threshold and the matcher *)

Section ThresholdAndMatcher.
Import ImageAssertions Matcher.
Context `{rt : Runtime} `{utils : MatcherUtils}.

(** X11.  Lowering the threshold never turns a met verdict into an
    unmet one: on the same reply, with a numeric score, a verdict met
    under a threshold is met under every threshold below it. *)
Theorem validateImage_threshold_monotone
  this low high invoke content matched props (s : float) :
  has_image low = true -> has_assertion low = true ->
  has_image high = true -> has_assertion high = true ->
  PrimFloat.leb (threshold_of low) (threshold_of high) = true ->
  jsonMatch content = Some matched ->
  JSON_parse (trim matched) = Parsed (JObject props) ->
  lookup (lit "score") props = JNumber s ->
  forall met,
    settle invoke (fun _ => Ok (text_reply content)) (validateImage this high)
    = Ok met ->
    assertionsMet met = JBool true ->
    exists met',
      settle invoke (fun _ => Ok (text_reply content)) (validateImage this low)
      = Ok met'
      /\ assertionsMet met' = JBool true.
Proof.
  intros Hil Hal Hih Hah Hle Hm Hp Hs met Hrun Hmet.
  rewrite (validateImage_on_object this high invoke content matched props
             Hih Hah Hm Hp) in Hrun.
  rewrite (validateImage_on_object this low invoke content matched props
             Hil Hal Hm Hp).
  rewrite Hs, ge_numbers in *. injection Hrun as <-. cbn [assertionsMet] in Hmet.
  destruct (PrimFloat.leb (threshold_of high) s) eqn:Hhigh; [|discriminate].
  rewrite (OrderFacts.leb_trans _ _ _ Hle Hhigh).
  eexists. split; [reflexivity|exact Hmet].
Qed.

(** X12.  The test pattern: a verdict of [validateImage], made from a
    reply with a numeric score [s] and a boolean [b], satisfies
    [{assertionsMet: true, score: floor}] exactly when the model said
    true, the score reaches the threshold of the call, and the score
    reaches the floor of the expectation. *)
Theorem validateImage_then_matcher
  this options invoke content matched props (s floor : float) (b : bool) :
  has_image options = true -> has_assertion options = true ->
  jsonMatch content = Some matched ->
  JSON_parse (trim matched) = Parsed (JObject props) ->
  lookup (lit "score") props = JNumber s ->
  lookup (lit "assertionsMet") props = JBool b ->
  exists verdict,
    settle invoke (fun _ => Ok (text_reply content))
      (validateImage this options) = Ok verdict
    /\ (pass (toSatisfyImageAssertions verdict
                [ (lit "assertionsMet", JBool true);
                  (lit "score", JNumber floor) ]) = true
        <-> b = true
            /\ PrimFloat.leb (threshold_of options) s = true
            /\ PrimFloat.leb floor s = true).
Proof.
  intros Hi Ha Hm Hp Hs Hb.
  rewrite (validateImage_on_object this options invoke content matched props
             Hi Ha Hm Hp).
  rewrite Hs, Hb, ge_numbers. eexists. split; [reflexivity|].
  rewrite pass_forallb. cbn [forallb entry_holds assertionsMet score].
  replace (JSString.eqb (lit "assertionsMet") (lit "assertionsMet"))
    with true by reflexivity.
  replace (JSString.eqb (lit "score") (lit "assertionsMet"))
    with false by reflexivity.
  replace (JSString.eqb (lit "score") (lit "score")) with true by reflexivity.
  rewrite ge_numbers, andb_true_r, andb_true_iff.
  destruct (PrimFloat.leb (threshold_of options) s), b; cbn [strict_equals Bool.eqb];
    intuition congruence.
Qed.

(** X13.  The expectation is a conjunction of its entries: two
    expectations put together pass when both pass, the order of the
    entries does not matter, and an expectation that passes still
    passes with entries left out. *)
Theorem toSatisfyImageAssertions_conjunction received :
  (forall first second,
     pass (toSatisfyImageAssertions received (first ++ second))
     = pass (toSatisfyImageAssertions received first)
       && pass (toSatisfyImageAssertions received second))
  /\ (forall expected reordered,
        Permutation expected reordered ->
        pass (toSatisfyImageAssertions received reordered)
        = pass (toSatisfyImageAssertions received expected))
  /\ (forall expected fewer,
        incl fewer expected ->
        pass (toSatisfyImageAssertions received expected) = true ->
        pass (toSatisfyImageAssertions received fewer) = true).
Proof.
  split; [|split].
  - intros first second. rewrite !pass_forallb. apply forallb_app.
  - intros expected reordered Hperm. rewrite !pass_forallb.
    induction Hperm as [|e l l' _ IH|e e' l|l l' l'' _ IH1 _ IH2];
      cbn [forallb].
    + reflexivity.
    + now rewrite IH.
    + now rewrite !andb_assoc, (andb_comm (entry_holds received e')).
    + now rewrite IH2.
  - intros expected fewer Hincl. rewrite !pass_forallb, !forallb_forall.
    intros H e He. apply H, Hincl, He.
Qed.

Lemma strict_equals_undefined v :
  strict_equals JUndefined v = true -> v = JUndefined.
Proof. destruct v; simpl; congruence. Qed.

(** X14.  A key that names no field of the verdict, a misspelt one for
    instance, makes the matcher fail as soon as its value is not
    [undefined]: it is compared, not skipped. *)
Theorem toSatisfyImageAssertions_unknown_key received expected key value :
  In (key, value) expected ->
  key <> lit "assertionsMet" -> key <> lit "score" ->
  key <> lit "tone" -> key <> lit "explanation" ->
  value <> JUndefined ->
  pass (toSatisfyImageAssertions received expected) = false.
Proof.
  intros Hin N1 N2 N3 N4 Hv. rewrite pass_forallb.
  apply not_true_is_false. intros Hall.
  rewrite forallb_forall in Hall. specialize (Hall _ Hin).
  unfold entry_holds, received_property in Hall.
  assert (F : forall k, key <> k -> JSString.eqb key k = false).
  { intros k Hk. apply not_true_is_false. intros E.
    now apply jsstring_eqb_eq in E. }
  rewrite (F _ N1), (F _ N2), (F _ N3), (F _ N4) in Hall.
  destruct (existsb (JSString.eqb key) Object_prototype_keys); [discriminate|].
  now apply strict_equals_undefined in Hall.
Qed.

(** X15.  The score of an expectation is a floor: a verdict with a
    numeric score that passes with a floor passes with every floor
    below it, the other entries being the same. *)
Theorem toSatisfyImageAssertions_floor_monotone
  received others (x low high : float) :
  score received = JNumber x ->
  PrimFloat.leb low high = true ->
  pass (toSatisfyImageAssertions received
          ((lit "score", JNumber high) :: others)) = true ->
  pass (toSatisfyImageAssertions received
          ((lit "score", JNumber low) :: others)) = true.
Proof.
  intros Hx Hle. rewrite !pass_forallb. cbn [forallb entry_holds].
  replace (JSString.eqb (lit "score") (lit "assertionsMet"))
    with false by reflexivity.
  replace (JSString.eqb (lit "score") (lit "score")) with true by reflexivity.
  rewrite Hx, !ge_numbers, !andb_true_iff. intros [Hhigh Hrest].
  split; [|assumption]. exact (OrderFacts.leb_trans _ _ _ Hle Hhigh).
Qed.

End ThresholdAndMatcher.

(* ================================================================== *)
(** * More about [generateImage] *)

Section GenerateImageMore.
Import ImageAssertions Failure.
Context `{rt : Runtime}.

(** Past the check on the image list, for a list that [Get] reads
    without throwing and whose length is not the number 0. *)
Lemma generateImage_try_first modelId body props images first :
  JSON_parse (TextDecoder_decode body) = Parsed (JObject props) ->
  lookup (lit "images") props = images ->
  ToBoolean images = true ->
  (exists len, Get images (lit "length") = Ok len
               /\ strict_equals len (JNumber 0) = false) ->
  Get images (lit "0") = Ok first ->
  ToBoolean first = true ->
  generateImage_try modelId (Ok {| response_body := Some body |})
  = JS.bind
      match first with
      | JString s => Ok (Buffer_from_base64 s)
      | other => Buffer_from_other other
      end
      (fun imageBytes =>
         Ok {| imageBytes := imageBytes;
               base64Image := first;
               modelId := modelId |}).
Proof.
  intros Hp Himg Htruthy (len & Hlen & Hne) Hfirst Hfirst_truthy.
  rewrite (generateImage_try_object modelId body props Hp). cbv zeta.
  rewrite Himg, Htruthy. cbn [negb]. rewrite Hlen. cbn [JS.bind].
  rewrite Hne, Hfirst. cbn [JS.bind]. now rewrite Hfirst_truthy.
Qed.

Lemma Get_array_length elems :
  Get (JArray elems) (lit "length")
  = Ok (JNumber (number_of_length (List.length elems))).
Proof. reflexivity. Qed.

Lemma Get_array_first first rest :
  Get (JArray (first :: rest)) (lit "0") = Ok first.
Proof. reflexivity. Qed.

(** X16.  On a response whose [images] is a list that starts with a
    text that is not empty, the method returns that text as
    [base64Image], its decoding as [imageBytes] and the model the call
    named, or the default one; the other entries of the list are not
    read. *)
Theorem generateImage_returns_first_image
  this options converse body props (c : N) (s : jsstring) rest :
  JSON_parse (TextDecoder_decode body) = Parsed (JObject props) ->
  lookup (lit "images") props = JArray (JString (c :: s) :: rest) ->
  settle (fun _ => Ok {| response_body := Some body |}) converse
    (generateImage this options)
  = Ok {| imageBytes := Buffer_from_base64 (c :: s);
          base64Image := JString (c :: s);
          modelId :=
            default (generation_modelId options)
              (lit "amazon.titan-image-generator-v2:0") |}.
Proof.
  intros Hp Himg. rewrite generateImage_settle.
  rewrite (generateImage_try_first _ body props _ (JString (c :: s)) Hp Himg);
    try reflexivity.
  eexists. split; [apply Get_array_length|].
  cbn [strict_equals List.length].
  apply NumberFacts.number_of_length_zero.
Qed.

(** X17.  The image list is not checked to be a list: when [images] is
    a text that is not empty, its first code unit is taken for the
    image. *)
Theorem generateImage_images_as_text
  this options converse body props (c : N) (s : jsstring) :
  JSON_parse (TextDecoder_decode body) = Parsed (JObject props) ->
  lookup (lit "images") props = JString (c :: s) ->
  settle (fun _ => Ok {| response_body := Some body |}) converse
    (generateImage this options)
  = Ok {| imageBytes := Buffer_from_base64 [c];
          base64Image := JString [c];
          modelId :=
            default (generation_modelId options)
              (lit "amazon.titan-image-generator-v2:0") |}.
Proof.
  intros Hp Himg. rewrite generateImage_settle.
  rewrite (generateImage_try_first _ body props _ (JString [c]) Hp Himg);
    try reflexivity.
  eexists. split; [reflexivity|].
  cbn [strict_equals List.length].
  apply NumberFacts.number_of_length_zero.
Qed.

(** What a result of the [try] block is made of. *)
Lemma generateImage_try_result model sent result :
  generateImage_try model sent = Ok result ->
  ToBoolean (base64Image result) = true
  /\ modelId result = model
  /\ (forall s, base64Image result = JString s ->
                imageBytes result = Buffer_from_base64 s).
Proof.
  unfold generateImage_try. destruct sent as [response|cause]; [|discriminate].
  cbn [JS.bind]. destruct (response_body response) as [body|]; [|discriminate].
  destruct (parse (TextDecoder_decode body)) as [responseBody|];
    [|discriminate].
  cbn [JS.bind].
  destruct (Get responseBody (lit "images")) as [images|]; [|discriminate].
  cbn [JS.bind].
  destruct (if negb (ToBoolean images) then Ok true
            else JS.bind (Get images (lit "length"))
                   (fun len => Ok (strict_equals len (JNumber 0))))
    as [[|]|]; cbn [JS.bind]; try discriminate.
  destruct (Get images (lit "0")) as [first|]; [|discriminate].
  cbn [JS.bind].
  destruct (ToBoolean first) eqn:Hfirst; cbn [negb]; [|discriminate].
  destruct first; cbn [JS.bind];
    try (destruct (Buffer_from_other _); [|discriminate]; cbn [JS.bind]);
    intros H; injection H as <-; cbn [base64Image imageBytes modelId];
    (split; [exact Hfirst|]); (split; [reflexivity|]);
    intros s' E; try discriminate E.
  now injection E as <-.
Qed.

(** X18.  Whatever the service answers, a result of [generateImage]
    has a [base64Image] that is not empty ([''], [null], [0] and the
    like are refused), the [modelId] of the call, and, when
    [base64Image] is a text, its decoding as [imageBytes]. *)
Theorem generateImage_result_invariant this options sent converse result :
  settle (fun _ => sent) converse (generateImage this options) = Ok result ->
  ToBoolean (base64Image result) = true
  /\ base64Image result <> JString []
  /\ modelId result
     = default (generation_modelId options)
         (lit "amazon.titan-image-generator-v2:0")
  /\ (forall s, base64Image result = JString s ->
                imageBytes result = Buffer_from_base64 s).
Proof.
  rewrite generateImage_settle. intros H.
  destruct (generateImage_try _ sent) as [r|cause] eqn:E; [|discriminate].
  cbn [try_catch_rethrow] in H. injection H as <-.
  destruct (generateImage_try_result _ sent r E) as (Ht & Hm & Hb).
  repeat split; try assumption.
  intros Hempty. rewrite Hempty in Ht. discriminate.
Qed.

(** X19.  The flow of the tests: the [base64Image] of a generation,
    given to [validateImage] with an assertion, passes the guards, and
    the image part that is sent carries the [imageBytes] of the
    generation. *)
Theorem generateImage_then_validateImage
  this options sent converse result (image assertion : jsstring) :
  settle (fun _ => sent) converse (generateImage this options) = Ok result ->
  base64Image result = JString image ->
  assertion <> [] ->
  exists input,
    Sent.conversation
      (validateImage this (MoreExamples.options_from image assertion))
    = Some (bedrock this, input)
    /\ Sent.image_bytes input = [imageBytes result].
Proof.
  rewrite generateImage_settle. intros H Himage Hassertion.
  destruct (generateImage_try _ sent) as [r|cause] eqn:E; [|discriminate].
  cbn [try_catch_rethrow] in H. injection H as <-.
  destruct (generateImage_try_result _ sent r E) as (Ht & _ & Hb).
  rewrite (Hb image Himage). rewrite Himage in Ht.
  destruct image as [|c image]; [discriminate|].
  destruct assertion as [|d assertion]; [now contradiction Hassertion|].
  eexists. split; reflexivity.
Qed.

Lemma new_client_region options_region :
  client_region (bedrock (ImageAssertions.new options_region))
  = region (ImageAssertions.new options_region).
Proof. reflexivity. Qed.

(** X20.  The constructor takes the region it is given, or
    [us-east-1] when it is given none or an empty one.  An instance it
    made sends a generation through a client of the region the call
    names, or of its own region when the call names none; the command
    names the model of the call, or the default one, and asks for JSON
    both ways. *)
Theorem generateImage_client_region options_region options :
  let this := ImageAssertions.new options_region in
  exists client command,
    Sent.invocation (generateImage this options) = Some (client, command)
    /\ client_region client
       = default (generation_region options) (region this)
    /\ region this <> []
    /\ invoke_modelId command
       = default (generation_modelId options)
           (lit "amazon.titan-image-generator-v2:0")
    /\ invoke_contentType command = lit "application/json"
    /\ invoke_accept command = lit "application/json"
    /\ (options_region = None \/ options_region = Some [] ->
        region this = lit "us-east-1")
    /\ (forall c r, options_region = Some (c :: r) -> region this = c :: r)
    /\ client_region (bedrock this) = region this
    /\ (generation_region options = None ->
        client_region client
        = match options_region with
          | Some (c :: r) => c :: r
          | _ => lit "us-east-1"
          end).
Proof.
  intros this.
  assert (Hregion : region this
                    = match options_region with
                      | Some (c :: r) => c :: r
                      | _ => lit "us-east-1"
                      end) by reflexivity.
  assert (Hclient : forall client,
    client = (if JSString.eqb (default (generation_region options) (region this))
                   (region this)
              then bedrock this
              else {| client_region :=
                        default (generation_region options) (region this) |}) ->
    client_region client = default (generation_region options) (region this)).
  { intros client ->. destruct (JSString.eqb _ _) eqn:E; [|reflexivity].
    apply jsstring_eqb_eq in E. rewrite E. apply new_client_region. }
  unfold generateImage. cbn [Sent.invocation].
  eexists _, _. split; [reflexivity|].
  split; [now apply Hclient|].
  split.
  { rewrite Hregion. destruct options_region as [[|c r]|]; discriminate. }
  split; [reflexivity|]. split; [reflexivity|]. split; [reflexivity|].
  split.
  { rewrite Hregion. intros [->| ->]; reflexivity. }
  split.
  { rewrite Hregion. now intros c r ->. }
  split; [reflexivity|].
  intros Hnone. rewrite (Hclient _ eq_refl), Hnone. exact Hregion.
Qed.

(** X21.  No retry: a generation makes one call to the service and a
    validation makes one call when its guards pass and none when they
    do not, whatever the service answers, a rejection included. *)
Theorem one_call_at_most this generation validation invoke converse :
  calls invoke converse (generateImage this generation) = 1
  /\ calls invoke converse (validateImage this validation)
     = if has_image validation && has_assertion validation then 1 else 0.
Proof.
  split; [reflexivity|].
  unfold validateImage, has_image, has_assertion. rewrite <- negb_orb.
  destruct (truthy_bytes _ || truthy_string (input_base64Image validation));
    [|reflexivity].
  now destruct (truthy_string (assertionPrompt validation)).
Qed.

End GenerateImageMore.

(* ================================================================== *)
(** * What is sent to the models *)

Section Requests.
Import ImageAssertions.
Context `{rt : Runtime}.

Lemma join_cons sep p rest :
  rest <> [] -> join sep (p :: rest) = p ++ sep ++ join sep rest.
Proof. destruct rest; [intros H; now contradiction H|reflexivity]. Qed.

(** Joining around one part. *)
Lemma join_around sep before part after :
  before <> [] -> after <> [] ->
  join sep (before ++ part :: after)
  = join sep before ++ sep ++ part ++ sep ++ join sep after.
Proof.
  intros Hbefore Hafter. induction before as [|p before IH];
    [now contradiction Hbefore|].
  destruct before as [|q before].
  - cbn [app]. rewrite (join_cons sep p) by discriminate.
    rewrite join_cons by assumption. reflexivity.
  - change ((p :: q :: before) ++ part :: after)
      with (p :: ((q :: before) ++ part :: after)).
    rewrite (join_cons sep p) by discriminate.
    rewrite IH by discriminate.
    rewrite (join_cons sep p (q :: before)) by discriminate.
    now rewrite <- !app_assoc.
Qed.

(** X22.  The prompt is a fixed text around the assertion: the
    assertion stands in it as it was given, nothing escaped, on a line
    of its own between two double quotes. *)
Theorem validationPrompt_embeds_assertion :
  exists before after,
    forall assertion,
      validationPrompt assertion
      = before ++ [LF; DQUOTE] ++ assertion ++ [DQUOTE; LF] ++ after.
Proof.
  pose (template := validationPrompt []).
  unfold validationPrompt in template.
  match eval unfold template in template with
  | join ?sep ?lines =>
      exists (join sep (firstn 24 lines)), (join sep (skipn 25 lines))
  end.
  clear template. intros assertion. unfold validationPrompt.
  cbn [firstn skipn].
  match goal with
  | |- join ?sep ?lines = _ =>
      change lines
        with (firstn 24 lines ++ ([DQUOTE] ++ assertion ++ [DQUOTE])
                :: skipn 25 lines)
  end.
  cbn [firstn skipn].
  rewrite join_around by discriminate.
  rewrite <- !app_assoc. reflexivity.
Qed.

(** X23.  The body of a generation request asks for one image, carries
    the prompt as it was given, takes 1024, 1024, premium and 8 for
    what the call leaves out, and has a [seed] exactly when the call
    gave one. *)
Theorem generateImage_request_body this options :
  let given := default (imageConfig options)
                 {| width := None; height := None; quality := None;
                    cfgScale := None; seed := None |} in
  exists client command config,
    Sent.invocation (generateImage this options) = Some (client, command)
    /\ invoke_body command
       = JSON_stringify
           (JObject
              [ (lit "taskType", JString (lit "TEXT_IMAGE"));
                (lit "textToImageParams",
                 JObject [ (lit "text", JString (prompt options)) ]);
                (lit "imageGenerationConfig", JObject config) ])
    /\ lookup (lit "numberOfImages") config = JNumber 1
    /\ lookup (lit "width") config = JNumber (default (width given) 1024%float)
    /\ lookup (lit "height") config = JNumber (default (height given) 1024%float)
    /\ lookup (lit "quality") config
       = JString (Quality_value (default (quality given) premium))
    /\ lookup (lit "cfgScale") config = JNumber (default (cfgScale given) 8%float)
    /\ (forall s, seed given = Some s -> lookup (lit "seed") config = JNumber s)
    /\ (seed given = None -> ~ In (lit "seed") (List.map fst config)).
Proof.
  intros given. unfold generateImage. cbn [Sent.invocation].
  eexists _, _, _. split; [reflexivity|]. cbn [invoke_body].
  split; [reflexivity|]. fold given.
  destruct (seed given) as [s|] eqn:Hseed.
  - repeat split; try reflexivity.
    + intros s' E. injection E as <-. reflexivity.
    + discriminate.
  - repeat split; try reflexivity.
    + discriminate.
    + intros _. vm_compute. intuition discriminate.
Qed.

End Requests.

(* ================================================================== *)
(** * The further statements at worked inputs *)

Section MoreWitnesses.
Import ImageAssertions Failure Matcher Examples MoreExamples.
Existing Instance TestRuntime.node.

(** Empty raw bytes are sent though a base64 text was given. *)
Lemma validateImage_image_sent_witness :
  exists input,
    Sent.conversation (validateImage this options_with_both)
    = Some (bedrock this, input)
    /\ Sent.image_bytes input = [[]].
Proof.
  destruct (validateImage_image_sent (rt := TestRuntime.node)
              this options_with_both eq_refl) as [Hbytes _].
  apply Hbytes. reflexivity.
Defined.

Lemma validateImage_rejection_as_is_witness :
  settle no_invoke
    (fun _ => Throw (ErrorObject (lit "ThrottlingException") (lit "slow down")))
    (validateImage this (options None))
  = Throw (ErrorObject (lit "ThrottlingException") (lit "slow down")).
Proof.
  apply (validateImage_rejection_as_is (rt := TestRuntime.node)
           this (options None) no_invoke); reflexivity.
Defined.

Lemma validateImage_reply_without_text_witness :
  settle no_invoke (fun _ => Ok empty_response)
    (validateImage this (options None))
  = Throw (ErrorObject (lit "TypeError")
             (lit "Cannot read properties of undefined (reading '0')"))
  /\ settle no_invoke
       (fun _ => Ok (blocks_reply [OtherBlock; TextBlock cat_reply]))
       (validateImage this (options None))
     = Throw (Error (lit "No validation output received from model")).
Proof.
  destruct (validateImage_reply_without_text (rt := TestRuntime.node)
              this (options None) no_invoke eq_refl eq_refl)
    as (Hnone & _ & _ & _ & Hblock & _).
  split; [exact Hnone|]. apply Hblock. reflexivity.
Defined.

Lemma validateImage_malformed_json_witness :
  settle no_invoke (fun _ => Ok (text_reply (lit "{oops}")))
    (validateImage this (options None))
  = Throw (ErrorObject (lit "SyntaxError")
             (lit "Unexpected token or end of JSON input")).
Proof.
  apply (validateImage_malformed_json (rt := TestRuntime.node)
           this (options None) no_invoke (lit "{oops}") (lit "{oops}"));
    vm_compute; reflexivity.
Defined.

Lemma validateImage_missing_score_witness :
  exists verdict,
    settle no_invoke (fun _ => Ok (text_reply scoreless_reply))
      (validateImage this (options (Some 0%float))) = Ok verdict
    /\ assertionsMet verdict = JBool false
    /\ score verdict = JUndefined.
Proof.
  apply (validateImage_missing_score (rt := TestRuntime.node)
           this (options (Some 0%float)) no_invoke scoreless_reply
           scoreless_reply scoreless_props);
    vm_compute; reflexivity.
Defined.

Lemma validateImage_raw_assertionsMet_witness :
  exists verdict,
    settle no_invoke (fun _ => Ok (text_reply yes_reply))
      (validateImage this (options None)) = Ok verdict
    /\ assertionsMet verdict = JString (lit "yes").
Proof.
  apply (validateImage_raw_assertionsMet (rt := TestRuntime.node)
           this (options None) no_invoke yes_reply yes_reply yes_props 9%float);
    vm_compute; reflexivity.
Defined.

Lemma validateImage_nan_threshold_witness :
  exists verdict,
    settle no_invoke (fun _ => Ok (text_reply cat_reply))
      (validateImage this (options (Some PrimFloat.nan))) = Ok verdict
    /\ assertionsMet verdict = JBool false.
Proof.
  apply (validateImage_nan_threshold (rt := TestRuntime.node)
           this (options (Some PrimFloat.nan)) no_invoke cat_reply cat_reply
           cat_props);
    vm_compute; reflexivity.
Defined.

Lemma jsonMatch_trimmed_witness :
  trim (lit "{a}{b}") = lit "{a}{b}"
  /\ (exists mid, lit "{a}{b}" = LBRACE :: mid ++ [RBRACE])
  /\ ~ In LF (lit "{a}{b}").
Proof.
  apply (BraceFacts.jsonMatch_trimmed (lit "Sure: {a}{b} done") (lit "{a}{b}")).
  vm_compute. reflexivity.
Defined.

Lemma validateImage_threshold_monotone_witness :
  exists met,
    settle no_invoke (fun _ => Ok (text_reply cat_reply))
      (validateImage this (options (Some 7%float))) = Ok met
    /\ assertionsMet met = JBool true.
Proof.
  apply (validateImage_threshold_monotone (rt := TestRuntime.node)
           this (options (Some 7%float)) (options (Some 9%float)) no_invoke
           cat_reply cat_reply cat_props 9%float
           eq_refl eq_refl eq_refl eq_refl eq_refl)
    with (met := verdict);
    vm_compute; reflexivity.
Defined.

Lemma validateImage_then_matcher_witness :
  exists verdict,
    settle no_invoke (fun _ => Ok (text_reply cat_reply))
      (validateImage this (options None)) = Ok verdict
    /\ (pass (toSatisfyImageAssertions verdict
                [ (lit "assertionsMet", JBool true);
                  (lit "score", JNumber 10) ]) = true
        <-> true = true
            /\ PrimFloat.leb (threshold_of (options None)) 9 = true
            /\ PrimFloat.leb 10 9 = true).
Proof.
  apply (validateImage_then_matcher (rt := TestRuntime.node)
           (utils := Examples.utils)
           this (options None) no_invoke cat_reply cat_reply cat_props
           9%float 10%float true);
    vm_compute; reflexivity.
Defined.

Lemma toSatisfyImageAssertions_unknown_key_witness :
  pass (toSatisfyImageAssertions verdict
          [ (lit "assertionsMet", JBool true); (lit "scroe", JNumber 1) ])
  = false.
Proof.
  apply (toSatisfyImageAssertions_unknown_key (rt := TestRuntime.node)
           (utils := Examples.utils) verdict _ (lit "scroe") (JNumber 1)).
  - right. now left.
  - vm_compute. discriminate.
  - vm_compute. discriminate.
  - vm_compute. discriminate.
  - vm_compute. discriminate.
  - discriminate.
Defined.

Lemma toSatisfyImageAssertions_floor_monotone_witness :
  pass (toSatisfyImageAssertions verdict
          [ (lit "score", JNumber 8); (lit "assertionsMet", JBool true) ])
  = true.
Proof.
  apply (toSatisfyImageAssertions_floor_monotone (rt := TestRuntime.node)
           (utils := Examples.utils) verdict
           [ (lit "assertionsMet", JBool true) ] 9%float 8%float 9%float);
    reflexivity.
Defined.

Lemma generateImage_returns_first_image_witness :
  settle
    (fun _ => Ok {| response_body :=
                      Some (images_body (lit "[" ++ quoted "aGk=" ++ lit ",null]")) |})
    no_converse (generateImage this generation_options)
  = Ok {| imageBytes := [Byte.x68; Byte.x69];
          base64Image := JString (lit "aGk=");
          modelId := lit "amazon.titan-image-generator-v2:0" |}.
Proof.
  apply (generateImage_returns_first_image (rt := TestRuntime.node)
           this generation_options no_converse _
           [ (lit "images", JArray [ JString (lit "aGk="); JNull ]) ]
           97%N (lit "Gk=") [ JNull ]);
    vm_compute; reflexivity.
Defined.

Lemma generateImage_images_as_text_witness :
  settle
    (fun _ => Ok {| response_body := Some (images_body (quoted "aGk=")) |})
    no_converse (generateImage this generation_options)
  = Ok {| imageBytes := [];
          base64Image := JString (lit "a");
          modelId := lit "amazon.titan-image-generator-v2:0" |}.
Proof.
  apply (generateImage_images_as_text (rt := TestRuntime.node)
           this generation_options no_converse _
           [ (lit "images", JString (lit "aGk=")) ] 97%N (lit "Gk="));
    vm_compute; reflexivity.
Defined.

Lemma generateImage_result_invariant_witness :
  ToBoolean (JString (lit "aGk=")) = true
  /\ JString (lit "aGk=") <> JString []
  /\ lit "amazon.titan-image-generator-v2:0"
     = default (generation_modelId generation_options)
         (lit "amazon.titan-image-generator-v2:0")
  /\ (forall s, JString (lit "aGk=") = JString s ->
                [Byte.x68; Byte.x69] = Buffer_from_base64 s).
Proof.
  apply (generateImage_result_invariant (rt := TestRuntime.node)
           this generation_options
           (Ok {| response_body :=
                    Some (images_body (lit "[" ++ quoted "aGk=" ++ lit "]")) |})
           no_converse
           {| imageBytes := [Byte.x68; Byte.x69];
              base64Image := JString (lit "aGk=");
              modelId := lit "amazon.titan-image-generator-v2:0" |}).
  vm_compute. reflexivity.
Defined.

Lemma generateImage_then_validateImage_witness :
  exists input,
    Sent.conversation
      (validateImage this (options_from (lit "aGk=") (lit "says hi")))
    = Some (bedrock this, input)
    /\ Sent.image_bytes input = [[Byte.x68; Byte.x69]].
Proof.
  apply (generateImage_then_validateImage (rt := TestRuntime.node)
           this generation_options
           (Ok {| response_body :=
                    Some (images_body (lit "[" ++ quoted "aGk=" ++ lit "]")) |})
           no_converse
           {| imageBytes := [Byte.x68; Byte.x69];
              base64Image := JString (lit "aGk=");
              modelId := lit "amazon.titan-image-generator-v2:0" |}
           (lit "aGk=") (lit "says hi")).
  - vm_compute. reflexivity.
  - reflexivity.
  - discriminate.
Defined.

(** A closing brace before the only opening one: no match. *)
Lemma validateImage_brace_match_witness :
  settle no_invoke (fun _ => Ok (text_reply (lit "} {")))
    (validateImage this (options None))
  = Throw (Error (lit "Model response did not include a valid JSON block"))
  /\ settle no_invoke (fun _ => Ok (text_reply (lit "Sure: {a}{b} done")))
       (validateImage this (options None))
     = Throw (ErrorObject (lit "SyntaxError")
                (lit "Unexpected token or end of JSON input")).
Proof.
  split.
  - destruct (validateImage_brace_match (rt := TestRuntime.node) (lit "} {"))
      as (_ & Hnone & Hthrow & _).
    apply Hthrow; try reflexivity; [discriminate|].
    apply Hnone. vm_compute. reflexivity.
  - destruct (validateImage_brace_match (rt := TestRuntime.node)
                (lit "Sure: {a}{b} done"))
      as (_ & _ & _ & Hparse).
    refine (eq_trans
              (Hparse this (options None) no_invoke (lit "Sure: ") (lit "a}{b")
                 (lit " done") eq_refl eq_refl eq_refl _ _)
              _).
    + vm_compute. intuition discriminate.
    + vm_compute. intuition discriminate.
    + vm_compute. reflexivity.
Defined.

End MoreWitnesses.
